(** * Snowflake MCP server: connection lifecycle and request routing

    A shallow embedding of [src/index.ts] (class [SnowflakeMCPServer]):
    configuration loading, the lazily opened shared connection, the query
    executor and the two request handlers (resource reads and tool calls),
    followed by the properties of that layer.

    Modelling conventions.
    - JavaScript strings are [string], one character per code unit.  The
      text primitives used by the guard of [read_query] ([trim],
      [toUpperCase], [startsWith]) are embedded for ASCII text (every code
      unit below 128), where the white space of ECMAScript is TAB, LF, VT,
      FF, CR and SPACE and case mapping acts on the letters a-z.  Outside
      ASCII the primitives of the language know further white space and
      further case pairs, so a text the embedded guard accepts is accepted
      by the language's, while a rejection is claimed for ASCII text only
      ([isAsciiText]).
    - [process.env] and the [arguments] object of a tool call are finite maps
      from property names to strings; reading a missing property gives
      [None], which stands for [undefined].  Tool arguments are strings, as
      every [inputSchema] of the server declares.
    - The class instance is a record holding [config] and the [connection]
      slot.  The snowflake driver is an external collaborator: its calls are
      recorded in a log, and its answers are given by an oracle that may
      depend on everything that happened so far.
    - [async] methods become computations in a state-and-exception monad; one
      request handler runs to completion before the next one starts. *)

From Stdlib Require Import String Ascii List Bool Arith Lia.
From stdpp Require Import base option list gmap strings.

Import ListNotations.
Local Open Scope string_scope.
Local Open Scope list_scope.
Local Open Scope nat_scope.

(** ** JavaScript values and text primitives *)

Module Js.

(** ECMAScript WhiteSpace / LineTerminator code units below 128:
    TAB, LF, VT, FF, CR and SPACE. *)
Definition isWhiteSpace (c : ascii) : bool :=
  let n := nat_of_ascii c in
  ((9 <=? n) && (n <=? 13)) || (n =? 32).

Definition isLower (c : ascii) : bool :=
  let n := nat_of_ascii c in (97 <=? n) && (n <=? 122).

Definition upperChar (c : ascii) : ascii :=
  if isLower c then ascii_of_nat (nat_of_ascii c - 32) else c.

(** [String.prototype.toUpperCase] *)
Fixpoint toUpperCase (s : string) : string :=
  match s with
  | EmptyString => EmptyString
  | String c s' => String (upperChar c) (toUpperCase s')
  end.

(** [String.prototype.trimStart] *)
Fixpoint trimStart (s : string) : string :=
  match s with
  | EmptyString => EmptyString
  | String c s' => if isWhiteSpace c then trimStart s' else s
  end.

Definition isEmpty (s : string) : bool :=
  match s with EmptyString => true | String _ _ => false end.

(** [String.prototype.trimEnd] *)
Fixpoint trimEnd (s : string) : string :=
  match s with
  | EmptyString => EmptyString
  | String c s' =>
      let r := trimEnd s' in
      if isWhiteSpace c && isEmpty r then EmptyString else String c r
  end.

(** [String.prototype.trim] *)
Definition trim (s : string) : string := trimEnd (trimStart s).

(** [s.startsWith(p)] *)
Fixpoint startsWith (s p : string) : bool :=
  match p, s with
  | EmptyString, _ => true
  | String _ _, EmptyString => false
  | String a p', String b s' => Ascii.eqb a b && startsWith s' p'
  end.

(** Truthiness of a value that is a string or [undefined]. *)
Definition truthy (v : option string) : bool :=
  match v with
  | Some s => negb (isEmpty s)
  | None => false
  end.

(** [a || b] on such values. *)
Definition or (a b : option string) : option string :=
  if truthy a then a else b.

(** [a || ''] : the right operand is a string, so is the result. *)
Definition orEmpty (a : option string) : string :=
  match a with
  | Some s => s
  | None => ""
  end.

(** Conversion of a template-literal substitution [${v}] to text. *)
Definition interpolate (v : option string) : string :=
  match v with
  | Some s => s
  | None => "undefined"
  end.

(** What a [throw] can carry in this program. *)
Inductive ErrorCode := InvalidRequest | MethodNotFound | InternalError.

Inductive Thrown :=
| Error (message : string)
| TypeError (message : string)
| McpError (code : ErrorCode) (message : string).

(** JSON-RPC numbers of the protocol's error codes. *)
Definition codeNumber (c : ErrorCode) : string :=
  match c with
  | InvalidRequest => "-32600"
  | MethodNotFound => "-32601"
  | InternalError => "-32603"
  end.

(** [error instanceof Error ? error.message : String(error)].  All three
    kinds are [Error] instances; the protocol SDK's [McpError] constructor
    stores its message argument behind a prefix naming the code. *)
Definition messageOf (e : Thrown) : string :=
  match e with
  | Error m => m
  | TypeError m => m
  | McpError c m => "MCP error " +:+ codeNumber c +:+ ": " +:+ m
  end.

End Js.

(** ** Configuration ([interface SnowflakeConfig], [loadConfig]) *)

Record SnowflakeConfig := {
  account : string;
  username : string;
  password : string;
  warehouse : option string;
  database : option string;
  schema : option string;
  role : option string
}.

(** Lines written to the error channel by [console.error]. *)
Inductive LogLine :=
| LogEnvHeader                          (* 'Environment variables received:' *)
| LogEnvVar (name : string) (set : bool) (* 'NAME:' followed by 'SET' / 'NOT SET' *)
| LogMissingConfig                      (* 'Error: Missing required ...' and the
                                           sample MCP configuration, lines 80-98 *)
| LogConnected.                         (* 'Connected to Snowflake' *)

(** Outcome of a piece of JavaScript: a value, or a thrown error. *)
Inductive Completion (A : Type) :=
| Normal (a : A)
| Throw (e : Js.Thrown).
Arguments Normal {A} a.
Arguments Throw {A} e.

Definition loadConfig (env : gmap string string)
  : list LogLine * Completion SnowflakeConfig :=
  let config := {|
    account := Js.orEmpty (env !! "SNOWFLAKE_ACCOUNT");
    username := Js.orEmpty (Js.or (env !! "SNOWFLAKE_USER") (env !! "SNOWFLAKE_USERNAME"));
    password := Js.orEmpty (env !! "SNOWFLAKE_PASSWORD");
    warehouse := env !! "SNOWFLAKE_WAREHOUSE";
    database := env !! "SNOWFLAKE_DATABASE";
    schema := env !! "SNOWFLAKE_SCHEMA";
    role := env !! "SNOWFLAKE_ROLE"
  |} in
  let debug :=
    [ LogEnvHeader;
      LogEnvVar "SNOWFLAKE_ACCOUNT" (Js.truthy (env !! "SNOWFLAKE_ACCOUNT"));
      LogEnvVar "SNOWFLAKE_USER" (Js.truthy (env !! "SNOWFLAKE_USER"));
      LogEnvVar "SNOWFLAKE_PASSWORD" (Js.truthy (env !! "SNOWFLAKE_PASSWORD")) ] in
  if Js.isEmpty (account config) || Js.isEmpty (username config)
     || Js.isEmpty (password config)
  then (debug ++ [LogMissingConfig],
        Throw (Js.Error "Missing required Snowflake configuration"))
  else (debug, Normal config).

(** ** The driver and the server object *)

(** The object handed to [snowflake.createConnection]. *)
Record ConnectionOptions := {
  opt_account : string;
  opt_username : string;
  opt_password : string;
  opt_warehouse : option string;
  opt_database : option string;
  opt_schema : option string;
  opt_role : option string
}.

(** A connection object is identified by its rank among the objects the
    driver has created. *)
Definition Connection := nat.

(** Calls made on the driver, in order. *)
Inductive Event :=
| EvCreateConnection (options : ConnectionOptions)
| EvConnect (c : Connection)
| EvExecute (c : Connection) (sqlText : string).

(** A row record: column name to value. *)
Definition Row := list (string * string).

(** What the driver passes to the [complete] callback of [execute]. *)
Inductive ExecuteOutcome :=
| ExecuteError (message : string)
| ExecuteRows (rows : option (list Row)).

(** The driver's answers.  Each is a function of the log up to and including
    the call being answered; [None] from [connectOutcome] is a callback
    without error, [Some m] a callback with an error whose message is [m]. *)
Record Driver := {
  connectOutcome : list Event -> option string;
  executeOutcome : list Event -> ExecuteOutcome
}.

(** The fields of [SnowflakeMCPServer] that the handlers use, together with
    the driver log and the error channel. *)
Record Server := {
  config : SnowflakeConfig;
  connection : option Connection;
  driverLog : list Event;
  stderr : list LogLine
}.

Definition isCreate (e : Event) : bool :=
  match e with EvCreateConnection _ => true | _ => false end.

Definition isConnect (e : Event) : bool :=
  match e with EvConnect _ => true | _ => false end.

(** SQL texts submitted to the driver, in order. *)
Fixpoint sqlTexts (log : list Event) : list string :=
  match log with
  | [] => []
  | EvExecute _ q :: log' => q :: sqlTexts log'
  | _ :: log' => sqlTexts log'
  end.

(** Number of connection objects created / of session-opening attempts. *)
Definition created (log : list Event) : nat := length (List.filter isCreate log).
Definition attempts (log : list Event) : nat := length (List.filter isConnect log).

(** ** Computations: state and exceptions *)

Definition M (A : Type) : Type := Server -> Completion A * Server.

Definition ret {A} (a : A) : M A := fun s => (Normal a, s).

Definition throw {A} (e : Js.Thrown) : M A := fun s => (Throw e, s).

Definition bind {A B} (m : M A) (k : A -> M B) : M B :=
  fun s =>
    match m s with
    | (Normal a, s') => k a s'
    | (Throw e, s') => (Throw e, s')
    end.

(** [try { m } catch (error) { h error }] *)
Definition tryCatch {A} (m : M A) (h : Js.Thrown -> M A) : M A :=
  fun s =>
    match m s with
    | (Normal a, s') => (Normal a, s')
    | (Throw e, s') => h e s'
    end.

Notation "'let!' x ':=' m 'in' k" := (bind m (fun x => k))
  (at level 10, x name, m at level 100, k at level 200, only parsing).
Notation "m ;;; k" := (bind m (fun _ => k))
  (at level 100, k at level 200, right associativity, only parsing).

Definition getConnection : M (option Connection) :=
  fun s => (Normal (connection s), s).

Definition setConnection (c : Connection) : M unit :=
  fun s => (Normal tt, {| config := config s; connection := Some c;
                          driverLog := driverLog s; stderr := stderr s |}).

Definition getConfig : M SnowflakeConfig :=
  fun s => (Normal (config s), s).

Definition consoleError (l : LogLine) : M unit :=
  fun s => (Normal tt, {| config := config s; connection := connection s;
                          driverLog := driverLog s; stderr := stderr s ++ [l] |}).

Definition record (e : Event) : M unit :=
  fun s => (Normal tt, {| config := config s; connection := connection s;
                          driverLog := driverLog s ++ [e]; stderr := stderr s |}).

Definition getLog : M (list Event) :=
  fun s => (Normal (driverLog s), s).

(** ** Connection manager, query executor and request handlers *)

(** What a handler returns: the text block is [JSON.stringify(rows, null, 2)],
    kept here as the row sequence itself. *)
Inductive Response :=
| ResourceContents (uri : string) (rows : list Row)
| ToolContent (rows : list Row).

(** A request: [params.uri] of a resource read, or [params.name] and
    [params.arguments] of a tool call ([arguments] may be absent). *)
Inductive Request :=
| ReadResource (uri : string)
| CallTool (name : string) (args : option (gmap string string)).

(** [args?.key] *)
Definition arg (args : option (gmap string string)) (key : string)
  : option string :=
  match args with
  | Some o => o !! key
  | None => None
  end.

(** Names and identifiers advertised by the two listing handlers. *)
Definition toolNames : list string :=
  ["read_query"; "list_databases"; "list_schemas"; "list_tables";
   "describe_table"].

Definition resourceUris : list string :=
  ["snowflake://databases"; "snowflake://schemas"; "snowflake://tables"].

Definition connectionOptions (cfg : SnowflakeConfig) : ConnectionOptions :=
  {| opt_account := account cfg;
     opt_username := username cfg;
     opt_password := password cfg;
     opt_warehouse := warehouse cfg;
     opt_database := database cfg;
     opt_schema := schema cfg;
     opt_role := role cfg |}.

Section WithDriver.

Variable drv : Driver.

(** [snowflake.createConnection(options)], for options out of which the
    driver builds a connection object.  A call in which the driver throws
    instead is not represented; what depends on the object being there is
    stated for runs in which [connect] has returned. *)
Definition createConnection (options : ConnectionOptions) : M Connection :=
  let! log := getLog in
  record (EvCreateConnection options) ;;;
  ret (created log).

(** [await promisify(c.connect.bind(c))()] *)
Definition connectAsync (c : Connection) : M unit :=
  record (EvConnect c) ;;;
  let! log := getLog in
  match connectOutcome drv log with
  | Some message => throw (Js.Error message)
  | None => ret tt
  end.

(** [private async connect()] *)
Definition connect : M unit :=
  let! slot := getConnection in
  match slot with
  | Some _ => ret tt
  | None =>
      let! cfg := getConfig in
      let! c := createConnection (connectionOptions cfg) in
      setConnection c ;;;
      connectAsync c ;;;
      consoleError LogConnected
  end.

(** [this.connection!.execute({ sqlText, complete })] behind a promise *)
Definition execute (c : Connection) (sqlText : string) : M (list Row) :=
  record (EvExecute c sqlText) ;;;
  let! log := getLog in
  match executeOutcome drv log with
  | ExecuteError message => throw (Js.Error message)
  | ExecuteRows (Some rows) => ret rows
  | ExecuteRows None => ret []
  end.

(** [private async executeQuery(sqlText)] *)
Definition executeQuery (sqlText : string) : M (list Row) :=
  let! slot := getConnection in
  (match slot with
   | Some _ => ret tt
   | None => connect
   end) ;;;
  let! slot' := getConnection in
  match slot' with
  | Some c => execute c sqlText
  | None => throw (Js.TypeError "Cannot read properties of null (reading 'execute')")
  end.

(** The [if (uri === ...)] statements of the resource handler and the
    [throw] that follows them. *)
Definition dispatchResource (uri : string) : M Response :=
  if String.eqb uri "snowflake://databases" then
    let! databases := executeQuery "SHOW DATABASES" in
    ret (ResourceContents uri databases)
  else if String.eqb uri "snowflake://schemas" then
    let! schemas := executeQuery "SHOW SCHEMAS" in
    ret (ResourceContents uri schemas)
  else if String.eqb uri "snowflake://tables" then
    let! tables := executeQuery "SHOW TABLES" in
    ret (ResourceContents uri tables)
  else
    throw (Js.McpError Js.InvalidRequest ("Unknown resource: " +:+ uri)).

(** Body of the [try] block of the resource handler. *)
Definition readResourceBody (uri : string) : M Response :=
  connect ;;;
  dispatchResource uri.

(** Handler of [ReadResourceRequestSchema]. *)
Definition readResource (uri : string) : M Response :=
  tryCatch (readResourceBody uri)
    (fun error =>
       throw (Js.McpError Js.InternalError
                ("Failed to read resource: " +:+ Js.messageOf error))).

(** The test guarding [read_query]:
    [query.trim().toUpperCase().startsWith('SELECT')]. *)
Definition isSelect (query : string) : bool :=
  Js.startsWith (Js.toUpperCase (Js.trim query)) "SELECT".

(** SQL text built by [case 'list_schemas']. *)
Definition listSchemasQuery (args : option (gmap string string)) : string :=
  let query := "SHOW SCHEMAS" in
  if Js.truthy (arg args "database")
  then "SHOW SCHEMAS IN DATABASE " +:+ Js.interpolate (arg args "database")
  else query.

(** SQL text built by [case 'list_tables']. *)
Definition listTablesQuery (args : option (gmap string string)) : string :=
  let query := "SHOW TABLES" in
  if Js.truthy (arg args "database") && Js.truthy (arg args "schema")
  then "SHOW TABLES IN " +:+ Js.interpolate (arg args "database") +:+ "."
         +:+ Js.interpolate (arg args "schema")
  else if Js.truthy (arg args "schema")
  then "SHOW TABLES IN SCHEMA " +:+ Js.interpolate (arg args "schema")
  else if Js.truthy (arg args "database")
  then "SHOW TABLES IN DATABASE " +:+ Js.interpolate (arg args "database")
  else query.

(** The [switch (name)] statement of the tool handler. *)
Definition dispatchTool (name : string) (args : option (gmap string string))
  : M Response :=
  if String.eqb name "read_query" then
    match arg args "query" with
    | None =>
        throw (Js.TypeError
                 "Cannot read properties of undefined (reading 'trim')")
    | Some query =>
        if negb (isSelect query)
        then throw (Js.Error "Only SELECT queries are allowed")
        else
          let! results := executeQuery query in
          ret (ToolContent results)
    end
  else if String.eqb name "list_databases" then
    let! databases := executeQuery "SHOW DATABASES" in
    ret (ToolContent databases)
  else if String.eqb name "list_schemas" then
    let! schemas := executeQuery (listSchemasQuery args) in
    ret (ToolContent schemas)
  else if String.eqb name "list_tables" then
    let! tables := executeQuery (listTablesQuery args) in
    ret (ToolContent tables)
  else if String.eqb name "describe_table" then
    let tableName := arg args "table_name" in
    let! description :=
      executeQuery ("DESCRIBE TABLE " +:+ Js.interpolate tableName) in
    ret (ToolContent description)
  else
    throw (Js.McpError Js.MethodNotFound ("Unknown tool: " +:+ name)).

(** Body of the [try] block of the tool handler. *)
Definition callToolBody (name : string) (args : option (gmap string string))
  : M Response :=
  connect ;;;
  dispatchTool name args.

(** Handler of [CallToolRequestSchema]. *)
Definition callTool (name : string) (args : option (gmap string string))
  : M Response :=
  tryCatch (callToolBody name args)
    (fun error =>
       throw (Js.McpError Js.InternalError
                ("Tool execution failed: " +:+ Js.messageOf error))).

Definition handle (r : Request) : M Response :=
  match r with
  | ReadResource uri => readResource uri
  | CallTool name args => callTool name args
  end.

(** Requests served one after the other; the completions are collected. *)
Fixpoint serve (rs : list Request) (s : Server)
  : list (Completion Response) * Server :=
  match rs with
  | [] => ([], s)
  | r :: rs' =>
      let (out, s') := handle r s in
      let (outs, s'') := serve rs' s' in
      (out :: outs, s'')
  end.

End WithDriver.

(** [new SnowflakeMCPServer()]: the configuration is loaded first; the
    protocol server and its handlers exist only if that did not throw. *)
Definition construct (env : gmap string string) : Completion Server :=
  match loadConfig env with
  | (_, Throw e) => Throw e
  | (log, Normal cfg) =>
      Normal {| config := cfg; connection := None;
                driverLog := []; stderr := log |}
  end.

(** ** Vocabulary of the properties *)

(** The initial [await this.connect()] of a handler returns normally: the
    slot is already occupied, or the driver opens the session. *)
Definition connectReturns (drv : Driver) (s : Server) : Prop :=
  (connect drv s).1 = Normal tt.

(** [c] is [lower] or [upper]. *)
Definition letter (lower upper c : ascii) : bool :=
  Ascii.eqb c lower || Ascii.eqb c upper.

(** The first six characters spell SELECT, in any letter case. *)
Definition beginsWithSelect (s : string) : bool :=
  match s with
  | String c1 (String c2 (String c3 (String c4 (String c5 (String c6 _))))) =>
      letter "s" "S" c1 && letter "e" "E" c2 && letter "l" "L" c3
      && letter "e" "E" c4 && letter "c" "C" c5 && letter "t" "T" c6
  | _ => false
  end.

(** "Starts with SELECT, case-insensitive, after trimming whitespace", read
    off the words: skip the leading white space, then compare six letters. *)
Definition startsWithSelectIgnoringCase (query : string) : bool :=
  beginsWithSelect (Js.trimStart query).

(** Every code unit of the text is below 128. *)
Fixpoint isAsciiText (s : string) : bool :=
  match s with
  | EmptyString => true
  | String c s' => (nat_of_ascii c <? 128) && isAsciiText s'
  end.

Fixpoint noWhiteSpace (s : string) : bool :=
  match s with
  | EmptyString => true
  | String c s' => negb (Js.isWhiteSpace c) && noWhiteSpace s'
  end.

(** An argument is given when reading it yields a non-empty string: this is
    the test [if (args?.key)] the handlers apply. *)
Definition given (args : option (gmap string string)) (key value : string)
  : Prop :=
  arg args key = Some value /\ value <> "".

(** An argument is not given when the property is missing or empty. *)
Definition notGiven (args : option (gmap string string)) (key : string)
  : Prop :=
  arg args key = None \/ arg args key = Some "".

(** A required setting is unusable when it is missing or empty. *)
Definition missing (v : option string) : Prop := v = None \/ v = Some "".

(** The user name comes from SNOWFLAKE_USER or, failing that, from the
    legacy SNOWFLAKE_USERNAME. *)
Definition userSetting (env : gmap string string) : option string :=
  match env !! "SNOWFLAKE_USER" with
  | Some (String c u) => Some (String c u)
  | _ => env !! "SNOWFLAKE_USERNAME"
  end.

(** A computation is steady when, started with an occupied slot, it leaves
    the slot as it is and asks the driver for no new connection object and
    no new session. *)
Definition Steady {A} (m : M A) : Prop :=
  forall s c,
    connection s = Some c ->
    connection (m s).2 = Some c
    /\ created (driverLog (m s).2) = created (driverLog s)
    /\ attempts (driverLog (m s).2) = attempts (driverLog s).

(** The error a tool call surfaces for a failure [e] inside its [try]. *)
Definition toolFailure (e : Js.Thrown) : Js.Thrown :=
  Js.McpError Js.InternalError ("Tool execution failed: " +:+ Js.messageOf e).

(** The error a resource read surfaces for a failure [e] inside its [try]. *)
Definition resourceFailure (e : Js.Thrown) : Js.Thrown :=
  Js.McpError Js.InternalError ("Failed to read resource: " +:+ Js.messageOf e).

(** ** Sample data *)

Definition sampleConfig : SnowflakeConfig :=
  {| account := "acme-eu1"; username := "alice"; password := "hunter2";
     warehouse := Some "WH"; database := None; schema := None; role := None |}.

Definition freshServer (cfg : SnowflakeConfig) : Server :=
  {| config := cfg; connection := None; driverLog := []; stderr := [] |}.

(** A driver that opens every session and answers every statement with no
    rows. *)
Definition reliableDriver : Driver :=
  {| connectOutcome := fun _ => None;
     executeOutcome := fun _ => ExecuteRows (Some []) |}.

(** A driver that cannot reach the warehouse. *)
Definition unreachableDriver : Driver :=
  {| connectOutcome := fun _ => Some "Network error";
     executeOutcome := fun _ => ExecuteError "Connection is not open" |}.

Definition sampleEnv : gmap string string :=
  {[ "SNOWFLAKE_ACCOUNT" := "acme-eu1";
     "SNOWFLAKE_USERNAME" := "alice";
     "SNOWFLAKE_PASSWORD" := "hunter2";
     "SNOWFLAKE_WAREHOUSE" := "WH" ]}.

(** ** The listing handlers *)

(** An entry of the list returned for [ListToolsRequestSchema]: the
    [inputSchema] is an object schema whose properties all have type
    'string'; each is kept as its name and description. *)
Module Tool.
Record t := {
  name : string;
  description : string;
  properties : list (string * string);
  required : list string
}.
End Tool.

(** An entry of the list returned for [ListResourcesRequestSchema]. *)
Module Resource.
Record t := {
  uri : string;
  name : string;
  description : string;
  mimeType : string
}.
End Resource.

(** Handler of [ListResourcesRequestSchema]: a constant, no state is read. *)
Definition listResources : list Resource.t :=
  [ {| Resource.uri := "snowflake://databases";
       Resource.name := "Databases";
       Resource.description := "List of available Snowflake databases";
       Resource.mimeType := "application/json" |};
    {| Resource.uri := "snowflake://schemas";
       Resource.name := "Schemas";
       Resource.description :=
         "List of available schemas in the current database";
       Resource.mimeType := "application/json" |};
    {| Resource.uri := "snowflake://tables";
       Resource.name := "Tables";
       Resource.description := "List of tables in the current schema";
       Resource.mimeType := "application/json" |} ].

(** Handler of [ListToolsRequestSchema]: a constant, no state is read. *)
Definition listTools : list Tool.t :=
  [ {| Tool.name := "read_query";
       Tool.description := "Execute a SELECT query on Snowflake";
       Tool.properties := [("query", "The SELECT query to execute")];
       Tool.required := ["query"] |};
    {| Tool.name := "list_databases";
       Tool.description := "List all available databases";
       Tool.properties := [];
       Tool.required := [] |};
    {| Tool.name := "list_schemas";
       Tool.description := "List all schemas in a database";
       Tool.properties :=
         [("database",
           "The database name (optional, uses current if not specified)")];
       Tool.required := [] |};
    {| Tool.name := "list_tables";
       Tool.description := "List all tables in a schema";
       Tool.properties :=
         [("database", "The database name (optional)");
          ("schema", "The schema name (optional)")];
       Tool.required := [] |};
    {| Tool.name := "describe_table";
       Tool.description := "Get table schema information";
       Tool.properties :=
         [("table_name",
           "The table name (can include database.schema.table)")];
       Tool.required := ["table_name"] |} ].

(** Names of the properties the [inputSchema] of tool [name] declares; none
    for a name that is not listed. *)
Definition declared (name : string) : list string :=
  match List.find (fun t => String.eqb (Tool.name t) name) listTools with
  | Some t => List.map fst (Tool.properties t)
  | None => []
  end.

(** Prefix a handler puts before the message of the error it caught. *)
Definition failurePrefix (r : Request) : string :=
  match r with
  | ReadResource _ => "Failed to read resource: "
  | CallTool _ _ => "Tool execution failed: "
  end.

(** The response a handler builds from the rows of its statement. *)
Definition responseOf (r : Request) (rows : list Row) : Response :=
  match r with
  | ReadResource uri => ResourceContents uri rows
  | CallTool _ _ => ToolContent rows
  end.

(** The part of a handler's [try] block that follows the initial
    [connect]. *)
Definition bodyOf (drv : Driver) (r : Request) : M Response :=
  match r with
  | ReadResource uri => dispatchResource drv uri
  | CallTool name args => dispatchTool drv name args
  end.

(** A driver that opens the session and rejects every statement. *)
Definition rejectingDriver : Driver :=
  {| connectOutcome := fun _ => None;
     executeOutcome := fun _ => ExecuteError "SQL compilation error" |}.

(** A driver that answers every statement with one row. *)
Definition oneRowDriver : Driver :=
  {| connectOutcome := fun _ => None;
     executeOutcome := fun _ => ExecuteRows (Some [[("name", "PUBLIC")]]) |}.

(** A driver whose [complete] callback carries neither error nor rows. *)
Definition silentDriver : Driver :=
  {| connectOutcome := fun _ => None;
     executeOutcome := fun _ => ExecuteRows None |}.

(** ** Text primitives *)

Lemma isWhiteSpace_upperChar c :
  Js.isWhiteSpace c = true -> Js.upperChar c = c.
Proof.
  unfold Js.isWhiteSpace, Js.upperChar, Js.isLower.
  intros H.
  destruct (97 <=? nat_of_ascii c) eqn:E; [|reflexivity].
  apply Nat.leb_le in E.
  apply orb_true_iff in H as [H|H].
  - apply andb_true_iff in H as [_ H]. apply Nat.leb_le in H. lia.
  - apply Nat.eqb_eq in H. lia.
Qed.

Lemma trimEnd_cons c s :
  Js.isWhiteSpace c = false ->
  Js.trimEnd (String c s) = String c (Js.trimEnd s).
Proof. intros H. simpl. now rewrite H. Qed.

(** Trailing white space never decides whether a text without white space is
    a prefix. *)
Lemma startsWith_trimEnd p : forall s,
  noWhiteSpace p = true ->
  Js.startsWith (Js.toUpperCase (Js.trimEnd s)) p
  = Js.startsWith (Js.toUpperCase s) p.
Proof.
  induction p as [|a p IH]; intros s Hp.
  - now destruct (Js.toUpperCase (Js.trimEnd s)), (Js.toUpperCase s).
  - simpl in Hp. apply andb_true_iff in Hp as [Ha Hp].
    apply negb_true_iff in Ha.
    destruct s as [|b s]; [reflexivity|].
    destruct (Js.isWhiteSpace b) eqn:Hb.
    + assert (Hab : Ascii.eqb a (Js.upperChar b) = false).
      { rewrite (isWhiteSpace_upperChar b Hb).
        apply Ascii.eqb_neq. intros ->. congruence. }
      simpl. rewrite Hb. simpl.
      destruct (Js.isEmpty (Js.trimEnd s)); simpl; now rewrite ?Hab.
    + rewrite trimEnd_cons by assumption. simpl. now rewrite IH.
Qed.

Lemma upperChar_letter (lower upper c : ascii) :
  Js.isLower lower = true ->
  Js.upperChar lower = upper ->
  Ascii.eqb upper (Js.upperChar c) = letter lower upper c.
Proof.
  intros Hl Hu. unfold letter.
  destruct (Ascii.eqb c lower) eqn:E1.
  - apply Ascii.eqb_eq in E1. subst c. rewrite Hu. now rewrite Ascii.eqb_refl.
  - simpl. rewrite (Ascii.eqb_sym c upper).
    unfold Js.upperChar at 1. destruct (Js.isLower c) eqn:Hc; [|reflexivity].
    (* c is a lower-case letter different from [lower] *)
    assert (Hne : c <> upper).
    { intros ->. subst upper. unfold Js.upperChar in Hc. rewrite Hl in Hc.
      unfold Js.isLower in Hc, Hl. rewrite nat_ascii_embedding in Hc.
      - apply andb_true_iff in Hc as [Hc _]. apply Nat.leb_le in Hc.
        apply andb_true_iff in Hl as [_ Hl]. apply Nat.leb_le in Hl. lia.
      - pose proof (nat_ascii_bounded lower). lia. }
    apply Ascii.eqb_neq in Hne. rewrite (Ascii.eqb_sym upper c), Hne.
    apply Ascii.eqb_neq. intros Heq. apply Ascii.eqb_neq in E1. apply E1.
    subst upper. unfold Js.upperChar in Heq. rewrite Hl in Heq.
    apply (f_equal nat_of_ascii) in Heq.
    unfold Js.isLower in Hc, Hl.
    apply andb_true_iff in Hc as [Hc1 Hc2]. apply Nat.leb_le in Hc1, Hc2.
    apply andb_true_iff in Hl as [Hl1 Hl2]. apply Nat.leb_le in Hl1, Hl2.
    rewrite !nat_ascii_embedding in Heq by lia.
    rewrite <- (ascii_nat_embedding c), <- (ascii_nat_embedding lower).
    f_equal. lia.
Qed.

(** The guard of [read_query] computes the property "starts with SELECT,
    ignoring case, after trimming". *)
Lemma isSelect_spec query :
  isSelect query = startsWithSelectIgnoringCase query.
Proof.
  unfold isSelect, startsWithSelectIgnoringCase, Js.trim.
  rewrite startsWith_trimEnd by reflexivity.
  destruct (Js.trimStart query) as [|c1 [|c2 [|c3 [|c4 [|c5 [|c6 r]]]]]];
    cbn [Js.toUpperCase Js.startsWith beginsWithSelect];
    rewrite ?(upperChar_letter "s" "S"), ?(upperChar_letter "e" "E"),
      ?(upperChar_letter "l" "L"), ?(upperChar_letter "c" "C"),
      ?(upperChar_letter "t" "T") by reflexivity;
    rewrite ?andb_false_r; try reflexivity.
  destruct (Js.toUpperCase r); rewrite ?andb_true_r, ?andb_assoc; reflexivity.
Qed.

(** ** Driver log *)

Lemma sqlTexts_app l1 l2 : sqlTexts (l1 ++ l2) = sqlTexts l1 ++ sqlTexts l2.
Proof.
  induction l1 as [|e l1 IH]; [reflexivity|].
  destruct e; simpl; now rewrite IH.
Qed.

Lemma created_app l1 l2 : created (l1 ++ l2) = created l1 + created l2.
Proof. unfold created. now rewrite List.filter_app, List.length_app. Qed.

Lemma attempts_app l1 l2 : attempts (l1 ++ l2) = attempts l1 + attempts l2.
Proof. unfold attempts. now rewrite List.filter_app, List.length_app. Qed.

(** ** Connection manager *)

Section Lifecycle.

Variable drv : Driver.

(** With an occupied slot [connect] returns at once and changes nothing. *)
Lemma connect_occupied s c :
  connection s = Some c -> connect drv s = (Normal tt, s).
Proof.
  intros H. unfold connect, bind, getConnection, ret. now rewrite H.
Qed.

(** With an empty slot [connect] stores the new connection object before it
    asks the driver to open the session. *)
Lemma connect_empty s :
  connection s = None ->
  let c := created (driverLog s) in
  let log :=
    (driverLog s ++ [EvCreateConnection (connectionOptions (config s))])
      ++ [EvConnect c] in
  connect drv s =
    match connectOutcome drv log with
    | Some message =>
        (Throw (Js.Error message),
         {| config := config s; connection := Some c;
            driverLog := log; stderr := stderr s |})
    | None =>
        (Normal tt,
         {| config := config s; connection := Some c;
            driverLog := log; stderr := stderr s ++ [LogConnected] |})
    end.
Proof.
  intros H. unfold connect, bind, getConnection. rewrite H.
  cbn -[created]. now destruct (connectOutcome drv _).
Qed.

(** Whether the driver opens the session or reports an error, [connect]
    leaves the connection object it was given in the slot. *)
Lemma connect_occupies s : is_Some (connection (connect drv s).2).
Proof.
  destruct (connection s) as [c|] eqn:H.
  - rewrite (connect_occupied s c H). simpl. rewrite H. eauto.
  - rewrite (connect_empty s H). destruct (connectOutcome drv _); simpl; eauto.
Qed.

Lemma connect_config s : config (connect drv s).2 = config s.
Proof.
  destruct (connection s) as [c|] eqn:H.
  - now rewrite (connect_occupied s c H).
  - rewrite (connect_empty s H). now destruct (connectOutcome drv _).
Qed.

(** [connect] submits no SQL. *)
Lemma connect_sqlTexts s :
  sqlTexts (driverLog (connect drv s).2) = sqlTexts (driverLog s).
Proof.
  destruct (connection s) as [c|] eqn:H.
  - now rewrite (connect_occupied s c H).
  - rewrite (connect_empty s H).
    destruct (connectOutcome drv _); simpl;
      rewrite !sqlTexts_app; simpl; now rewrite !app_nil_r.
Qed.

(** Counting: an empty slot costs one object and one attempt. *)
Lemma connect_counts s :
  connection s = None ->
  created (driverLog (connect drv s).2) = S (created (driverLog s))
  /\ attempts (driverLog (connect drv s).2) = S (attempts (driverLog s)).
Proof.
  intros H. rewrite (connect_empty s H).
  destruct (connectOutcome drv _); simpl;
    rewrite !created_app, !attempts_app; unfold created, attempts; simpl; lia.
Qed.

Lemma connect_steady : Steady (connect drv).
Proof. intros s c H. now rewrite (connect_occupied s c H). Qed.

(** ** Query executor *)

Lemma execute_unfold c sqlText s :
  execute drv c sqlText s =
    let s' := (record (EvExecute c sqlText) s).2 in
    match executeOutcome drv (driverLog s') with
    | ExecuteError message => (Throw (Js.Error message), s')
    | ExecuteRows rows => (Normal (default [] rows), s')
    end.
Proof.
  unfold execute, bind, getLog. simpl.
  destruct (executeOutcome drv _) as [m|[rows|]]; reflexivity.
Qed.

Lemma executeQuery_occupied sqlText s c :
  connection s = Some c ->
  executeQuery drv sqlText s = execute drv c sqlText s.
Proof.
  intros H. unfold executeQuery, bind, getConnection, ret.
  rewrite H. simpl. now rewrite H.
Qed.

(** With an occupied slot the executor submits exactly its argument. *)
Lemma executeQuery_sqlTexts sqlText s c :
  connection s = Some c ->
  sqlTexts (driverLog (executeQuery drv sqlText s).2)
  = sqlTexts (driverLog s) ++ [sqlText].
Proof.
  intros H. rewrite (executeQuery_occupied _ _ _ H), execute_unfold.
  cbv zeta. destruct (executeOutcome drv _); simpl; now rewrite sqlTexts_app.
Qed.

Lemma executeQuery_steady sqlText : Steady (executeQuery drv sqlText).
Proof.
  intros s c H. rewrite (executeQuery_occupied _ _ _ H), execute_unfold.
  cbv zeta. destruct (executeOutcome drv _); simpl;
    rewrite created_app, attempts_app; unfold created, attempts; simpl;
    repeat split; trivial; lia.
Qed.

(** ** Steady computations compose *)

Lemma ret_steady {A} (a : A) : Steady (ret a).
Proof. intros s c H. simpl. auto. Qed.

Lemma throw_steady {A} (e : Js.Thrown) : Steady (@throw A e).
Proof. intros s c H. simpl. auto. Qed.

Lemma bind_steady {A B} (m : M A) (k : A -> M B) :
  Steady m -> (forall a, Steady (k a)) -> Steady (bind m k).
Proof.
  intros Hm Hk s c H. unfold bind.
  destruct (Hm s c H) as (H1 & H2 & H3).
  destruct (m s) as [[a|e] s1]; simpl in *.
  - destruct (Hk a s1 c H1) as (K1 & K2 & K3).
    repeat split; congruence.
  - auto.
Qed.

Lemma tryCatch_steady {A} (m : M A) (h : Js.Thrown -> M A) :
  Steady m -> (forall e, Steady (h e)) -> Steady (tryCatch m h).
Proof.
  intros Hm Hh s c H. unfold tryCatch.
  destruct (Hm s c H) as (H1 & H2 & H3).
  destruct (m s) as [[a|e] s1]; simpl in *.
  - auto.
  - destruct (Hh e s1 c H1) as (K1 & K2 & K3).
    repeat split; congruence.
Qed.

Lemma query_steady {A} sqlText (f : list Row -> A) :
  Steady (bind (executeQuery drv sqlText) (fun rows => ret (f rows))).
Proof.
  apply bind_steady; [apply executeQuery_steady | intros; apply ret_steady].
Qed.

Lemma dispatchTool_steady name args : Steady (dispatchTool drv name args).
Proof.
  unfold dispatchTool.
  repeat match goal with
         | |- Steady (if ?b then _ else _) => destruct b
         | |- Steady (match ?o with Some _ => _ | None => _ end) => destruct o
         | |- Steady (bind (executeQuery _ _) _) => apply query_steady
         | |- Steady (throw _) => apply throw_steady
         end.
Qed.

Lemma callTool_steady name args : Steady (callTool drv name args).
Proof.
  apply tryCatch_steady; [|intros; apply throw_steady].
  apply bind_steady; [apply connect_steady | intros; apply dispatchTool_steady].
Qed.

Lemma dispatchResource_steady uri : Steady (dispatchResource drv uri).
Proof.
  unfold dispatchResource.
  repeat match goal with
         | |- Steady (if ?b then _ else _) => destruct b
         | |- Steady (bind (executeQuery _ _) _) => apply query_steady
         | |- Steady (throw _) => apply throw_steady
         end.
Qed.

Lemma readResource_steady uri : Steady (readResource drv uri).
Proof.
  apply tryCatch_steady; [|intros; apply throw_steady].
  apply bind_steady;
    [apply connect_steady | intros; apply dispatchResource_steady].
Qed.

Lemma handle_steady r : Steady (handle drv r).
Proof. destruct r; [apply readResource_steady | apply callTool_steady]. Qed.

(** ** Handlers: the shape of one call *)

(** A handler body guarded by the initial [connect], started on an empty
    slot: one object, one attempt, and the slot ends up occupied. *)
Lemma guarded_counts {A} (rest : M A) (h : Js.Thrown -> M A) s :
  Steady rest -> (forall e, Steady (h e)) ->
  connection s = None ->
  let s' := (tryCatch (bind (connect drv) (fun _ => rest)) h s).2 in
  is_Some (connection s')
  /\ created (driverLog s') = S (created (driverLog s))
  /\ attempts (driverLog s') = S (attempts (driverLog s)).
Proof.
  intros Hrest Hh Hs.
  destruct (connect_counts s Hs) as [Hc Ha].
  destruct (connect_occupies s) as [c Hslot].
  unfold tryCatch, bind. destruct (connect drv s) as [[[]|e] s1]; simpl in *.
  - destruct (Hrest s1 c Hslot) as (R1 & R2 & R3).
    destruct (rest s1) as [[a|e] s2]; simpl in *.
    + rewrite R1, R2, R3. eauto.
    + destruct (Hh e s2 c R1) as (K1 & K2 & K3).
      rewrite K1, K2, K3, R2, R3. eauto.
  - destruct (Hh e s1 c Hslot) as (K1 & K2 & K3).
    rewrite K1, K2, K3. eauto.
Qed.

Lemma handle_counts r s :
  connection s = None ->
  is_Some (connection (handle drv r s).2)
  /\ created (driverLog (handle drv r s).2) = S (created (driverLog s))
  /\ attempts (driverLog (handle drv r s).2) = S (attempts (driverLog s)).
Proof.
  intros Hs. destruct r as [uri|name args]; simpl.
  - apply guarded_counts; trivial;
      [apply dispatchResource_steady | intros; apply throw_steady].
  - apply guarded_counts; trivial;
      [apply dispatchTool_steady | intros; apply throw_steady].
Qed.

Lemma serve_cons r rs s :
  (serve drv (r :: rs) s).2 = (serve drv rs (handle drv r s).2).2.
Proof.
  simpl. destruct (handle drv r s) as [out s1]. simpl.
  now destruct (serve drv rs s1).
Qed.

Lemma serve_steady rs : forall s c,
  connection s = Some c ->
  created (driverLog (serve drv rs s).2) = created (driverLog s)
  /\ attempts (driverLog (serve drv rs s).2) = attempts (driverLog s).
Proof.
  induction rs as [|r rs IH]; intros s c Hs; [now simpl|].
  rewrite serve_cons.
  destruct (handle_steady r s c Hs) as (H1 & H2 & H3).
  destruct (IH _ c H1) as [I1 I2]. split; congruence.
Qed.

(** What the initial [connect] leaves behind when it returns. *)
Lemma connectReturns_inv s :
  connectReturns drv s ->
  exists c,
    connect drv s = (Normal tt, (connect drv s).2)
    /\ connection (connect drv s).2 = Some c
    /\ sqlTexts (driverLog (connect drv s).2) = sqlTexts (driverLog s).
Proof.
  unfold connectReturns. intros H.
  destruct (connect_occupies s) as [c Hc]. exists c.
  split; [|split; [exact Hc | apply connect_sqlTexts]].
  destruct (connect drv s) as [o s1]. simpl in *. now subst o.
Qed.

Lemma connectReturns_occupied s c :
  connection s = Some c -> connectReturns drv s.
Proof. intros H. unfold connectReturns. now rewrite (connect_occupied s c H). Qed.

Lemma callTool_connected name args s s1 :
  connect drv s = (Normal tt, s1) ->
  callTool drv name args s
  = tryCatch (dispatchTool drv name args) (fun e => throw (toolFailure e)) s1.
Proof.
  intros H. unfold callTool, callToolBody, tryCatch, bind. now rewrite H.
Qed.

Lemma callTool_disconnected name args s s1 e :
  connect drv s = (Throw e, s1) ->
  callTool drv name args s = (Throw (toolFailure e), s1).
Proof.
  intros H. unfold callTool, callToolBody, tryCatch, bind. now rewrite H.
Qed.

Lemma readResource_connected uri s s1 :
  connect drv s = (Normal tt, s1) ->
  readResource drv uri s
  = tryCatch (dispatchResource drv uri) (fun e => throw (resourceFailure e)) s1.
Proof.
  intros H. unfold readResource, readResourceBody, tryCatch, bind.
  now rewrite H.
Qed.

(** A branch that only runs one statement submits exactly that statement. *)
Lemma query_branch_sqlTexts {A} sqlText (f : list Row -> A) h s c :
  connection s = Some c ->
  sqlTexts (driverLog
    (tryCatch (bind (executeQuery drv sqlText) (fun rows => ret (f rows)))
       (fun e => throw (h e)) s).2)
  = sqlTexts (driverLog s) ++ [sqlText].
Proof.
  intros H. unfold tryCatch, bind.
  rewrite <- (executeQuery_sqlTexts sqlText s c H).
  now destruct (executeQuery drv sqlText s) as [[rows|e] s1].
Qed.

(** Every failure of a tool call is an InternalError-class protocol error. *)
Lemma callTool_failure_class name args s e :
  (callTool drv name args s).1 = Throw e ->
  exists message, e = Js.McpError Js.InternalError message.
Proof.
  unfold callTool, tryCatch.
  destruct (callToolBody drv name args s) as [[a|e0] s1]; simpl.
  - discriminate.
  - intros [= <-]. unfold toolFailure. eauto.
Qed.

Lemma readResource_failure_class uri s e :
  (readResource drv uri s).1 = Throw e ->
  exists message, e = Js.McpError Js.InternalError message.
Proof.
  unfold readResource, tryCatch.
  destruct (readResourceBody drv uri s) as [[a|e0] s1]; simpl.
  - discriminate.
  - intros [= <-]. eauto.
Qed.

End Lifecycle.

(** ** Configuration loading *)

Lemma orEmpty_missing v : missing v -> Js.orEmpty v = "".
Proof. now intros [->| ->]. Qed.

Lemma userSetting_or env :
  userSetting env
  = Js.or (env !! "SNOWFLAKE_USER") (env !! "SNOWFLAKE_USERNAME").
Proof.
  unfold userSetting, Js.or.
  now destruct (env !! "SNOWFLAKE_USER") as [[|c u]|].
Qed.

Lemma loadConfig_missing env :
  missing (env !! "SNOWFLAKE_ACCOUNT") \/ missing (userSetting env)
  \/ missing (env !! "SNOWFLAKE_PASSWORD") ->
  (loadConfig env).2 = Throw (Js.Error "Missing required Snowflake configuration")
  /\ last (loadConfig env).1 = Some LogMissingConfig.
Proof.
  intros H. unfold loadConfig. cbn [account username password].
  rewrite <- userSetting_or.
  assert (E : Js.isEmpty (Js.orEmpty (env !! "SNOWFLAKE_ACCOUNT"))
              || Js.isEmpty (Js.orEmpty (userSetting env))
              || Js.isEmpty (Js.orEmpty (env !! "SNOWFLAKE_PASSWORD")) = true).
  { destruct H as [H|[H|H]]; rewrite (orEmpty_missing _ H); simpl;
      now rewrite ?orb_true_r. }
  rewrite E. now split.
Qed.

Lemma loadConfig_complete env a u p :
  env !! "SNOWFLAKE_ACCOUNT" = Some a -> userSetting env = Some u ->
  env !! "SNOWFLAKE_PASSWORD" = Some p ->
  a <> "" -> u <> "" -> p <> "" ->
  (loadConfig env).2 =
    Normal {| account := a; username := u; password := p;
              warehouse := env !! "SNOWFLAKE_WAREHOUSE";
              database := env !! "SNOWFLAKE_DATABASE";
              schema := env !! "SNOWFLAKE_SCHEMA";
              role := env !! "SNOWFLAKE_ROLE" |}.
Proof.
  intros Ha Hu Hp Na Nu Np. unfold loadConfig. cbn [account username password].
  rewrite <- userSetting_or, Ha, Hu, Hp. simpl.
  destruct a; [congruence|]. destruct u; [congruence|].
  destruct p; [congruence|]. reflexivity.
Qed.

(** C8.  If the account, the user name (SNOWFLAKE_USER or, failing that,
    SNOWFLAKE_USERNAME) or the password is missing or empty, loading the
    configuration throws the "Missing required Snowflake configuration"
    error after logging the remediation hint, and construction of the server
    throws with it, so no server object and no handler exists.  If the three
    are non-empty, loading succeeds: the server starts with the record made
    of these three values and of the four optional settings as found in the
    environment, with an empty connection slot. *)
Theorem configuration_is_validated_at_startup (env : gmap string string) :
  (missing (env !! "SNOWFLAKE_ACCOUNT") \/ missing (userSetting env)
   \/ missing (env !! "SNOWFLAKE_PASSWORD") ->
   (loadConfig env).2
     = Throw (Js.Error "Missing required Snowflake configuration")
   /\ last (loadConfig env).1 = Some LogMissingConfig
   /\ construct env
     = Throw (Js.Error "Missing required Snowflake configuration"))
  /\ (forall a u p,
        env !! "SNOWFLAKE_ACCOUNT" = Some a -> userSetting env = Some u ->
        env !! "SNOWFLAKE_PASSWORD" = Some p ->
        a <> "" -> u <> "" -> p <> "" ->
        exists log,
          construct env =
            Normal {| config :=
                        {| account := a; username := u; password := p;
                           warehouse := env !! "SNOWFLAKE_WAREHOUSE";
                           database := env !! "SNOWFLAKE_DATABASE";
                           schema := env !! "SNOWFLAKE_SCHEMA";
                           role := env !! "SNOWFLAKE_ROLE" |};
                      connection := None; driverLog := []; stderr := log |}).
Proof.
  split.
  - intros H. destruct (loadConfig_missing env H) as [H1 H2].
    repeat split; trivial. unfold construct.
    destruct (loadConfig env) as [log o]. simpl in H1. now subst o.
  - intros a u p Ha Hu Hp Na Nu Np.
    pose proof (loadConfig_complete env a u p Ha Hu Hp Na Nu Np) as H.
    unfold construct. destruct (loadConfig env) as [log o]. simpl in H.
    subst o. now exists log.
Qed.

Lemma configuration_is_validated_at_startup_witness :
  construct (delete "SNOWFLAKE_PASSWORD" sampleEnv)
    = Throw (Js.Error "Missing required Snowflake configuration")
  /\ exists log,
       construct sampleEnv =
         Normal {| config :=
                     {| account := "acme-eu1"; username := "alice";
                        password := "hunter2"; warehouse := Some "WH";
                        database := None; schema := None; role := None |};
                   connection := None; driverLog := []; stderr := log |}.
Proof.
  split.
  - destruct (configuration_is_validated_at_startup
                (delete "SNOWFLAKE_PASSWORD" sampleEnv)) as [H _].
    apply H. right; right; left. reflexivity.
  - destruct (configuration_is_validated_at_startup sampleEnv) as [_ H].
    destruct (H "acme-eu1" "alice" "hunter2") as [log Hlog];
      try reflexivity; try discriminate.
    exists log. exact Hlog.
Defined.

(** ** The connection slot *)

(** C7.  [connect] is idempotent: with an object in the slot it returns at
    once and changes nothing.  Hence, for requests served one after the other
    by a newly built server whose first connection attempt succeeds, at most
    one connection object is ever created and at most one session opening is
    ever attempted, and as soon as one request has been served there has
    been exactly one of each. *)
Theorem connection_is_created_once (drv : Driver) :
  (forall s c, connection s = Some c -> connect drv s = (Normal tt, s))
  /\ (forall rs s0,
        connection s0 = None -> driverLog s0 = [] ->
        connectReturns drv s0 ->
        created (driverLog (serve drv rs s0).2) <= 1
        /\ attempts (driverLog (serve drv rs s0).2) <= 1
        /\ (rs <> [] ->
            created (driverLog (serve drv rs s0).2) = 1
            /\ attempts (driverLog (serve drv rs s0).2) = 1)).
Proof.
  split; [apply connect_occupied|].
  intros rs s0 Hslot Hlog Hfirst.
  destruct rs as [|r rs].
  - simpl. rewrite Hlog. unfold created, attempts. simpl.
    split; [lia|]. split; [lia|]. intros H. now contradict H.
  - rewrite serve_cons.
    destruct (handle_counts drv r s0 Hslot) as ([c Hc] & H1 & H2).
    destruct (serve_steady drv rs _ c Hc) as [S1 S2].
    rewrite S1, S2, H1, H2, Hlog. unfold created, attempts. simpl.
    repeat split; lia.
Qed.

Lemma connection_is_created_once_witness :
  let rs := [CallTool "list_databases" None;
             ReadResource "snowflake://tables";
             CallTool "describe_table" (Some {[ "table_name" := "DB.SCH.TBL" ]})] in
  let s := (serve reliableDriver rs (freshServer sampleConfig)).2 in
  connect reliableDriver s = (Normal tt, s)
  /\ created (driverLog s) = 1 /\ attempts (driverLog s) = 1.
Proof.
  intros rs s.
  destruct (connection_is_created_once reliableDriver) as [Hidem Hseq].
  split.
  - apply (Hidem s 0). reflexivity.
  - apply (Hseq rs (freshServer sampleConfig));
      [reflexivity | reflexivity | reflexivity |].
    discriminate.
Defined.

(** C1.  A server whose driver cannot open the session, asked twice for the
    list of databases: the first call fails with the driver's message and
    leaves the connection object in the slot; the second call finds the slot
    occupied, makes no new attempt and submits its statement on the
    connection that never opened. *)
Theorem failed_connect_leaves_slot_occupied :
  let s0 := freshServer sampleConfig in
  let first := callTool unreachableDriver "list_databases" None s0 in
  let second := callTool unreachableDriver "list_databases" None first.2 in
  first.1 = Throw (Js.McpError Js.InternalError
                     "Tool execution failed: Network error")
  /\ connection first.2 = Some 0
  /\ attempts (driverLog first.2) = 1
  /\ connection second.2 = Some 0
  /\ attempts (driverLog second.2) = 1
  /\ created (driverLog second.2) = 1
  /\ sqlTexts (driverLog second.2) = ["SHOW DATABASES"].
Proof. vm_compute. repeat split. Qed.

(** ** Tool routing *)

Section Routing.

Variable drv : Driver.

Lemma dispatch_read_query args :
  dispatchTool drv "read_query" args =
    match arg args "query" with
    | None =>
        throw (Js.TypeError
                 "Cannot read properties of undefined (reading 'trim')")
    | Some query =>
        if negb (isSelect query)
        then throw (Js.Error "Only SELECT queries are allowed")
        else bind (executeQuery drv query) (fun rows => ret (ToolContent rows))
    end.
Proof. reflexivity. Qed.

Lemma dispatch_list_schemas args :
  dispatchTool drv "list_schemas" args =
    bind (executeQuery drv (listSchemasQuery args))
      (fun rows => ret (ToolContent rows)).
Proof. reflexivity. Qed.

Lemma dispatch_list_tables args :
  dispatchTool drv "list_tables" args =
    bind (executeQuery drv (listTablesQuery args))
      (fun rows => ret (ToolContent rows)).
Proof. reflexivity. Qed.

Lemma dispatch_unknown_tool name args :
  ~ In name toolNames ->
  dispatchTool drv name args =
    throw (Js.McpError Js.MethodNotFound ("Unknown tool: " +:+ name)).
Proof.
  intros H. unfold dispatchTool.
  repeat match goal with
         | |- context [String.eqb name ?k] =>
             destruct (String.eqb_spec name k) as [->|_];
             [exfalso; apply H; simpl; tauto|]
         end.
  reflexivity.
Qed.

Lemma dispatch_unknown_resource uri :
  ~ In uri resourceUris ->
  dispatchResource drv uri =
    throw (Js.McpError Js.InvalidRequest ("Unknown resource: " +:+ uri)).
Proof.
  intros H. unfold dispatchResource.
  repeat match goal with
         | |- context [String.eqb uri ?k] =>
             destruct (String.eqb_spec uri k) as [->|_];
             [exfalso; apply H; simpl; tauto|]
         end.
  reflexivity.
Qed.

(** A tool whose branch runs one statement submits that statement, once the
    initial [connect] has returned. *)
Lemma callTool_query_sqlTexts name args sqlText s :
  dispatchTool drv name args =
    bind (executeQuery drv sqlText) (fun rows => ret (ToolContent rows)) ->
  connectReturns drv s ->
  sqlTexts (driverLog (callTool drv name args s).2)
  = sqlTexts (driverLog s) ++ [sqlText].
Proof.
  intros Hd Hc. destruct (connectReturns_inv drv s Hc) as (c & H1 & H2 & H3).
  rewrite (callTool_connected drv name args s _ H1), Hd.
  rewrite (query_branch_sqlTexts drv sqlText ToolContent toolFailure _ c H2).
  now rewrite H3.
Qed.

(** A call that throws before reaching the executor stops in the state the
    initial [connect] left. *)
Lemma callTool_rejected name args s e :
  dispatchTool drv name args = throw e ->
  connectReturns drv s ->
  callTool drv name args s = (Throw (toolFailure e), (connect drv s).2).
Proof.
  intros Hd Hc. destruct (connectReturns_inv drv s Hc) as (c & H1 & _).
  now rewrite (callTool_connected drv name args s _ H1), Hd.
Qed.

Lemma readResource_rejected uri s e :
  dispatchResource drv uri = throw e ->
  connectReturns drv s ->
  readResource drv uri s = (Throw (resourceFailure e), (connect drv s).2).
Proof.
  intros Hd Hc. destruct (connectReturns_inv drv s Hc) as (c & H1 & _).
  now rewrite (readResource_connected drv uri s _ H1), Hd.
Qed.

(** Without SQL of its own, a call leaves the list of submitted statements
    as it was, whether or not the initial [connect] returns. *)
Lemma callTool_rejected_sqlTexts name args s e :
  dispatchTool drv name args = throw e ->
  sqlTexts (driverLog (callTool drv name args s).2) = sqlTexts (driverLog s).
Proof.
  intros Hd. rewrite <- (connect_sqlTexts drv s).
  unfold callTool, callToolBody, tryCatch, bind. rewrite Hd.
  now destruct (connect drv s) as [[[]|e0] s1].
Qed.

Lemma readResource_rejected_sqlTexts uri s e :
  dispatchResource drv uri = throw e ->
  sqlTexts (driverLog (readResource drv uri s).2) = sqlTexts (driverLog s).
Proof.
  intros Hd. rewrite <- (connect_sqlTexts drv s).
  unfold readResource, readResourceBody, tryCatch, bind. rewrite Hd.
  now destruct (connect drv s) as [[[]|e0] s1].
Qed.

End Routing.

Lemma truthy_given args key value :
  given args key value ->
  Js.truthy (arg args key) = true /\ Js.interpolate (arg args key) = value.
Proof. intros [-> H]. now destruct value. Qed.

Lemma truthy_notGiven args key :
  notGiven args key -> Js.truthy (arg args key) = false.
Proof. now intros [-> | ->]. Qed.

Lemma truthy_empty : Js.truthy (Some "") = Js.truthy None.
Proof. reflexivity. Qed.

(** ** read_query *)

(** C2, as stated, fails.  A rejected [read_query] on a new server: the text
    does not start with SELECT, yet the call has created a connection object,
    stored it in the slot and asked the driver to open the session before
    rejecting the text; and when the driver cannot open the session, the
    caller gets the connection failure instead of the validation message. *)
Lemma read_query_rejection_touches_connection :
  let s0 := freshServer sampleConfig in
  let args : option (gmap string string) :=
    Some {[ "query" := "DELETE FROM t" ]} in
  let call := callTool reliableDriver "read_query" args s0 in
  let offline := callTool unreachableDriver "read_query" args s0 in
  startsWithSelectIgnoringCase "DELETE FROM t" = false
  /\ connection s0 = None
  /\ connection call.2 = Some 0
  /\ driverLog call.2
     = [EvCreateConnection (connectionOptions sampleConfig); EvConnect 0]
  /\ call.2 <> s0
  /\ offline.1 = Throw (Js.McpError Js.InternalError
                          "Tool execution failed: Network error").
Proof. vm_compute. repeat split. discriminate. Qed.

(** C2, amended.  A [read_query] call whose text is ASCII and does not start
    with SELECT (case-insensitive, after trimming), once the initial
    [connect] has returned, fails with an InternalError-class protocol error
    constructed with the message "Tool execution failed: Only SELECT queries
    are allowed".  The server is left exactly as that [connect] left it: no
    SQL is submitted, and when the slot was already occupied nothing has
    changed at all. *)
Theorem read_query_rejects_after_connect
    (drv : Driver) (s : Server) (args : option (gmap string string))
    (query : string) :
  arg args "query" = Some query ->
  isAsciiText query = true ->
  startsWithSelectIgnoringCase query = false ->
  connectReturns drv s ->
  callTool drv "read_query" args s
    = (Throw (Js.McpError Js.InternalError
                "Tool execution failed: Only SELECT queries are allowed"),
       (connect drv s).2)
  /\ sqlTexts (driverLog (callTool drv "read_query" args s).2)
     = sqlTexts (driverLog s)
  /\ (forall c, connection s = Some c ->
        (callTool drv "read_query" args s).2 = s).
Proof.
  intros Hq _ Hsel Hc.
  assert (Hd : dispatchTool drv "read_query" args
               = throw (Js.Error "Only SELECT queries are allowed")).
  { rewrite dispatch_read_query, Hq, isSelect_spec, Hsel. reflexivity. }
  rewrite (callTool_rejected drv _ _ _ _ Hd Hc).
  split; [reflexivity|]. split; [apply connect_sqlTexts|].
  intros c Hs. simpl. now rewrite (connect_occupied drv s c Hs).
Qed.

Lemma read_query_rejects_after_connect_witness :
  let s0 := freshServer sampleConfig in
  let args : option (gmap string string) :=
    Some {[ "query" := "DELETE FROM t" ]} in
  callTool reliableDriver "read_query" args s0
    = (Throw (Js.McpError Js.InternalError
                "Tool execution failed: Only SELECT queries are allowed"),
       (connect reliableDriver s0).2).
Proof.
  intros s0 args.
  apply (read_query_rejects_after_connect reliableDriver s0 args
           "DELETE FROM t"); reflexivity.
Defined.



(** C9.  A [read_query] call without a [query] argument always fails with an
    InternalError-class protocol error and submits no SQL.  Once the initial
    [connect] has returned, what is thrown inside the handler is the type
    error of the method access on [undefined]; the caller receives it
    wrapped, and not the "Only SELECT queries are allowed" message. *)
Theorem read_query_without_query_is_a_type_error
    (drv : Driver) (s : Server) (args : option (gmap string string)) :
  arg args "query" = None ->
  (exists message,
     (callTool drv "read_query" args s).1
       = Throw (Js.McpError Js.InternalError message))
  /\ sqlTexts (driverLog (callTool drv "read_query" args s).2)
     = sqlTexts (driverLog s)
  /\ (connectReturns drv s ->
      (callToolBody drv "read_query" args s).1
        = Throw (Js.TypeError
                   "Cannot read properties of undefined (reading 'trim')")
      /\ (callTool drv "read_query" args s).1
         = Throw (Js.McpError Js.InternalError
             "Tool execution failed: Cannot read properties of undefined (reading 'trim')")
      /\ (callTool drv "read_query" args s).1
         <> Throw (Js.McpError Js.InternalError
              "Tool execution failed: Only SELECT queries are allowed")).
Proof.
  intros Hq.
  assert (Hd : dispatchTool drv "read_query" args
               = throw (Js.TypeError
                   "Cannot read properties of undefined (reading 'trim')")).
  { now rewrite dispatch_read_query, Hq. }
  split; [|split].
  - unfold callTool, callToolBody, tryCatch, bind. rewrite Hd.
    destruct (connect drv s) as [[[]|e] s1]; simpl; eauto.
  - exact (callTool_rejected_sqlTexts drv _ _ _ _ Hd).
  - intros Hc. rewrite (callTool_rejected drv _ _ _ _ Hd Hc).
    destruct (connectReturns_inv drv s Hc) as (c & H1 & _).
    unfold callToolBody, bind. rewrite H1, Hd.
    repeat split. discriminate.
Qed.

Lemma read_query_without_query_is_a_type_error_witness :
  (callTool reliableDriver "read_query" (Some ∅) (freshServer sampleConfig)).1
  = Throw (Js.McpError Js.InternalError
      "Tool execution failed: Cannot read properties of undefined (reading 'trim')").
Proof.
  destruct (read_query_without_query_is_a_type_error reliableDriver
              (freshServer sampleConfig) (Some ∅)) as (_ & _ & H);
    [reflexivity|].
  apply H. reflexivity.
Defined.

(** ** list_schemas and list_tables *)

(** C5.  Once the initial [connect] has returned, a [list_schemas] call
    submits exactly one statement: [SHOW SCHEMAS] when no database is given,
    and [SHOW SCHEMAS IN DATABASE] followed by the database value, character
    for character, when one is given. *)
Theorem list_schemas_sql
    (drv : Driver) (s : Server) (args : option (gmap string string)) :
  connectReturns drv s ->
  (notGiven args "database" ->
   sqlTexts (driverLog (callTool drv "list_schemas" args s).2)
   = sqlTexts (driverLog s) ++ ["SHOW SCHEMAS"])
  /\ (forall db, given args "database" db ->
      sqlTexts (driverLog (callTool drv "list_schemas" args s).2)
      = sqlTexts (driverLog s) ++ ["SHOW SCHEMAS IN DATABASE " +:+ db]).
Proof.
  intros Hc.
  pose proof (callTool_query_sqlTexts drv "list_schemas" args
                (listSchemasQuery args) s (dispatch_list_schemas drv args) Hc)
    as H.
  rewrite H. unfold listSchemasQuery. split.
  - intros Hn. now rewrite (truthy_notGiven _ _ Hn).
  - intros db Hg. destruct (truthy_given _ _ _ Hg) as [-> ->]. reflexivity.
Qed.

Lemma list_schemas_sql_witness :
  let s0 := freshServer sampleConfig in
  sqlTexts (driverLog (callTool reliableDriver "list_schemas" None s0).2)
  = ["SHOW SCHEMAS"]
  /\ sqlTexts (driverLog
       (callTool reliableDriver "list_schemas"
          (Some {[ "database" := "X" ]}) s0).2)
     = ["SHOW SCHEMAS IN DATABASE X"].
Proof.
  intros s0. split.
  - destruct (list_schemas_sql reliableDriver s0 None) as [H _];
      [reflexivity|].
    apply H. left. reflexivity.
  - destruct (list_schemas_sql reliableDriver s0
                (Some {[ "database" := "X" ]})) as [_ H]; [reflexivity|].
    apply (H "X"). split; [reflexivity | discriminate].
Defined.

(** C4.  Once the initial [connect] has returned, a [list_tables] call
    submits exactly one statement, built from the argument values character
    for character: [SHOW TABLES IN db.schema] when both are given,
    [SHOW TABLES IN SCHEMA schema] when only the schema is,
    [SHOW TABLES IN DATABASE db] when only the database is, and
    [SHOW TABLES] when neither is. *)
Theorem list_tables_sql
    (drv : Driver) (s : Server) (args : option (gmap string string)) :
  connectReturns drv s ->
  (forall db sch,
     given args "database" db -> given args "schema" sch ->
     sqlTexts (driverLog (callTool drv "list_tables" args s).2)
     = sqlTexts (driverLog s) ++ ["SHOW TABLES IN " +:+ db +:+ "." +:+ sch])
  /\ (forall sch,
        notGiven args "database" -> given args "schema" sch ->
        sqlTexts (driverLog (callTool drv "list_tables" args s).2)
        = sqlTexts (driverLog s) ++ ["SHOW TABLES IN SCHEMA " +:+ sch])
  /\ (forall db,
        given args "database" db -> notGiven args "schema" ->
        sqlTexts (driverLog (callTool drv "list_tables" args s).2)
        = sqlTexts (driverLog s) ++ ["SHOW TABLES IN DATABASE " +:+ db])
  /\ (notGiven args "database" -> notGiven args "schema" ->
      sqlTexts (driverLog (callTool drv "list_tables" args s).2)
      = sqlTexts (driverLog s) ++ ["SHOW TABLES"]).
Proof.
  intros Hc.
  pose proof (callTool_query_sqlTexts drv "list_tables" args
                (listTablesQuery args) s (dispatch_list_tables drv args) Hc)
    as H.
  rewrite H. unfold listTablesQuery. repeat split.
  - intros db sch Hd Hs.
    destruct (truthy_given _ _ _ Hd) as [-> ->].
    destruct (truthy_given _ _ _ Hs) as [-> ->]. reflexivity.
  - intros sch Hd Hs. rewrite (truthy_notGiven _ _ Hd).
    destruct (truthy_given _ _ _ Hs) as [-> ->]. reflexivity.
  - intros db Hd Hs. rewrite (truthy_notGiven _ _ Hs).
    destruct (truthy_given _ _ _ Hd) as [-> ->]. reflexivity.
  - intros Hd Hs.
    rewrite (truthy_notGiven _ _ Hd), (truthy_notGiven _ _ Hs). reflexivity.
Qed.

Lemma list_tables_sql_witness :
  let s0 := freshServer sampleConfig in
  let submitted args :=
    sqlTexts (driverLog (callTool reliableDriver "list_tables" args s0).2) in
  submitted (Some {[ "database" := "A"; "schema" := "B" ]})
  = ["SHOW TABLES IN A.B"]
  /\ submitted (Some {[ "schema" := "B" ]}) = ["SHOW TABLES IN SCHEMA B"]
  /\ submitted (Some {[ "database" := "A" ]}) = ["SHOW TABLES IN DATABASE A"]
  /\ submitted None = ["SHOW TABLES"].
Proof.
  intros s0 submitted. split; [|split; [|split]].
  - destruct (list_tables_sql reliableDriver s0
                (Some {[ "database" := "A"; "schema" := "B" ]}))
      as (H & _); [reflexivity|].
    apply (H "A" "B"); (split; [reflexivity | discriminate]).
  - destruct (list_tables_sql reliableDriver s0 (Some {[ "schema" := "B" ]}))
      as (_ & H & _); [reflexivity|].
    apply (H "B"); [left; reflexivity | split; [reflexivity | discriminate]].
  - destruct (list_tables_sql reliableDriver s0 (Some {[ "database" := "A" ]}))
      as (_ & _ & H & _); [reflexivity|].
    apply (H "A"); [split; [reflexivity | discriminate] | left; reflexivity].
  - destruct (list_tables_sql reliableDriver s0 None)
      as (_ & _ & _ & H); [reflexivity|].
    apply H; left; reflexivity.
Defined.

Lemma callTool_list_schemas_ext drv args args' :
  listSchemasQuery args = listSchemasQuery args' ->
  callTool drv "list_schemas" args = callTool drv "list_schemas" args'.
Proof.
  intros H. unfold callTool, callToolBody.
  now rewrite !dispatch_list_schemas, H.
Qed.

Lemma callTool_list_tables_ext drv args args' :
  listTablesQuery args = listTablesQuery args' ->
  callTool drv "list_tables" args = callTool drv "list_tables" args'.
Proof.
  intros H. unfold callTool, callToolBody.
  now rewrite !dispatch_list_tables, H.
Qed.

Lemma arg_insert_empty (o : gmap string string) key :
  Js.truthy (arg (Some (<[key := ""]> o)) key) = false
  /\ Js.truthy (arg (Some (delete key o)) key) = false.
Proof.
  simpl. now rewrite lookup_insert_eq, lookup_delete_eq.
Qed.

Lemma arg_insert_other (o : gmap string string) key key' value :
  key <> key' ->
  arg (Some (<[key := value]> o)) key' = o !! key'
  /\ arg (Some (delete key o)) key' = o !! key'.
Proof.
  intros H. simpl. now rewrite lookup_insert_ne, lookup_delete_ne.
Qed.

(** C10.  An empty database or schema value is treated as an absent one.
    Once the initial [connect] has returned, [list_schemas] called with an
    empty database submits [SHOW SCHEMAS], and [list_tables] called with an
    empty database and/or an empty schema submits the shorter statement
    built from what is left, never one with an empty name in it.  In each
    case the call made with the empty value is, as a whole, the call made
    without that argument. *)
Theorem empty_argument_is_absent
    (drv : Driver) (s : Server) (o : gmap string string) :
  connectReturns drv s ->
  let submitted tool args :=
    sqlTexts (driverLog (callTool drv tool args s).2) in
  let before := sqlTexts (driverLog s) in
  submitted "list_schemas" (Some (<["database" := ""]> o))
  = before ++ ["SHOW SCHEMAS"]
  /\ callTool drv "list_schemas" (Some (<["database" := ""]> o))
     = callTool drv "list_schemas" (Some (delete "database" o))
  /\ (forall sch,
        o !! "schema" = Some sch -> sch <> "" ->
        submitted "list_tables" (Some (<["database" := ""]> o))
        = before ++ ["SHOW TABLES IN SCHEMA " +:+ sch])
  /\ (o !! "schema" = None \/ o !! "schema" = Some "" ->
      submitted "list_tables" (Some (<["database" := ""]> o))
      = before ++ ["SHOW TABLES"])
  /\ callTool drv "list_tables" (Some (<["database" := ""]> o))
     = callTool drv "list_tables" (Some (delete "database" o))
  /\ (forall db,
        o !! "database" = Some db -> db <> "" ->
        submitted "list_tables" (Some (<["schema" := ""]> o))
        = before ++ ["SHOW TABLES IN DATABASE " +:+ db])
  /\ (o !! "database" = None \/ o !! "database" = Some "" ->
      submitted "list_tables" (Some (<["schema" := ""]> o))
      = before ++ ["SHOW TABLES"])
  /\ callTool drv "list_tables" (Some (<["schema" := ""]> o))
     = callTool drv "list_tables" (Some (delete "schema" o)).
Proof.
  intros Hc submitted before. subst submitted before. cbv beta.
  assert (Hne : "database" <> "schema") by discriminate.
  assert (Hne' : "schema" <> "database") by discriminate.
  destruct (arg_insert_empty o "database") as [D1 D2].
  destruct (arg_insert_empty o "schema") as [S1 S2].
  destruct (arg_insert_other o "database" "schema" "" Hne) as [D3 D4].
  destruct (arg_insert_other o "schema" "database" "" Hne') as [S3 S4].
  rewrite (callTool_query_sqlTexts drv "list_schemas" _ _ s
             (dispatch_list_schemas drv _) Hc).
  rewrite !(callTool_query_sqlTexts drv "list_tables" _ _ s
              (dispatch_list_tables drv _) Hc).
  unfold listSchemasQuery, listTablesQuery.
  rewrite D1, D3, S1, S3, !andb_false_r. cbn [andb].
  split; [reflexivity|]. split.
  { apply callTool_list_schemas_ext. unfold listSchemasQuery.
    now rewrite D1, D2. }
  split.
  { intros sch Hsch Hn. rewrite Hsch. destruct sch; [congruence|].
    reflexivity. }
  split.
  { intros [H|H]; now rewrite H. }
  split.
  { apply callTool_list_tables_ext. unfold listTablesQuery.
    now rewrite D1, D2, D3, D4. }
  split.
  { intros db Hdb Hn. rewrite Hdb. destruct db; [congruence|].
    reflexivity. }
  split.
  { intros [H|H]; now rewrite H. }
  apply callTool_list_tables_ext. unfold listTablesQuery.
  rewrite S1, S2, S3, S4. now rewrite !andb_false_r.
Qed.

Lemma empty_argument_is_absent_witness :
  let s0 := freshServer sampleConfig in
  sqlTexts (driverLog
    (callTool reliableDriver "list_schemas"
       (Some (<["database" := ""]> ∅)) s0).2) = ["SHOW SCHEMAS"]
  /\ sqlTexts (driverLog
       (callTool reliableDriver "list_tables"
          (Some (<["database" := ""]> {[ "schema" := "B" ]})) s0).2)
     = ["SHOW TABLES IN SCHEMA B"]
  /\ sqlTexts (driverLog
       (callTool reliableDriver "list_tables"
          (Some (<["schema" := ""]> {[ "database" := "" ]})) s0).2)
     = ["SHOW TABLES"].
Proof.
  intros s0. split; [|split].
  - destruct (empty_argument_is_absent reliableDriver s0 ∅ eq_refl)
      as (H & _).
    exact H.
  - destruct (empty_argument_is_absent reliableDriver s0
                {[ "schema" := "B" ]} eq_refl) as (_ & _ & H & _).
    apply (H "B"); [reflexivity | discriminate].
  - destruct (empty_argument_is_absent reliableDriver s0
                {[ "database" := "" ]} eq_refl) as (_ & _ & _ & _ & _ & _ & H & _).
    apply H. right. reflexivity.
Defined.

(** ** Unknown names *)

(** C6.  A tool name outside the five known ones and a resource identifier
    outside the three known ones, on a server with a working driver: no SQL
    is submitted, but the [MethodNotFound] and [InvalidRequest] errors
    thrown inside the [try] blocks are caught by the handlers' own [catch]
    and reach the caller as InternalError-class errors quoting them. *)
Theorem unknown_names_surface_as_internal_errors :
  let s0 := freshServer sampleConfig in
  let tool := callTool reliableDriver "drop_table" None s0 in
  let resource := readResource reliableDriver "snowflake://views" s0 in
  ~ In "drop_table" toolNames
  /\ ~ In "snowflake://views" resourceUris
  /\ (callToolBody reliableDriver "drop_table" None s0).1
     = Throw (Js.McpError Js.MethodNotFound "Unknown tool: drop_table")
  /\ tool.1
     = Throw (Js.McpError Js.InternalError
         "Tool execution failed: MCP error -32601: Unknown tool: drop_table")
  /\ sqlTexts (driverLog tool.2) = []
  /\ (readResourceBody reliableDriver "snowflake://views" s0).1
     = Throw (Js.McpError Js.InvalidRequest
                "Unknown resource: snowflake://views")
  /\ resource.1
     = Throw (Js.McpError Js.InternalError
         "Failed to read resource: MCP error -32600: Unknown resource: snowflake://views")
  /\ sqlTexts (driverLog resource.2) = [].
Proof.
  repeat split; try reflexivity.
  - simpl. intros H. repeat destruct H as [H|H]; try discriminate H; exact H.
  - simpl. intros H. repeat destruct H as [H|H]; try discriminate H; exact H.
Qed.

(** Unknown names in general: the error that reaches the caller is the
    InternalError-class wrapping, and no SQL is submitted. *)
Lemma unknown_tool_failure drv name args s :
  ~ In name toolNames ->
  sqlTexts (driverLog (callTool drv name args s).2) = sqlTexts (driverLog s)
  /\ (connectReturns drv s ->
      (callTool drv name args s).1
      = Throw (toolFailure
                 (Js.McpError Js.MethodNotFound ("Unknown tool: " +:+ name)))).
Proof.
  intros H. pose proof (dispatch_unknown_tool drv name args H) as Hd. split.
  - exact (callTool_rejected_sqlTexts drv _ _ _ _ Hd).
  - intros Hc. now rewrite (callTool_rejected drv _ _ _ _ Hd Hc).
Qed.

Lemma unknown_resource_failure drv uri s :
  ~ In uri resourceUris ->
  sqlTexts (driverLog (readResource drv uri s).2) = sqlTexts (driverLog s)
  /\ (connectReturns drv s ->
      (readResource drv uri s).1
      = Throw (resourceFailure
                 (Js.McpError Js.InvalidRequest ("Unknown resource: " +:+ uri)))).
Proof.
  intros H. pose proof (dispatch_unknown_resource drv uri H) as Hd. split.
  - exact (readResource_rejected_sqlTexts drv _ _ _ Hd).
  - intros Hc. now rewrite (readResource_rejected drv _ _ _ Hd Hc).
Qed.

(** ** One call, case by case *)

Section Calls.

Variable drv : Driver.

(** [connect] throws only what the driver reported, and only from an empty
    slot. *)
Lemma connect_throws s e :
  (connect drv s).1 = Throw e ->
  connection s = None
  /\ exists message, e = Js.Error message
     /\ connectOutcome drv
          ((driverLog s
              ++ [EvCreateConnection (connectionOptions (config s))])
             ++ [EvConnect (created (driverLog s))]) = Some message.
Proof.
  destruct (connection s) as [c|] eqn:Hs.
  - rewrite (connect_occupied drv s c Hs). discriminate.
  - rewrite (connect_empty drv s Hs).
    destruct (connectOutcome drv _) as [m|] eqn:Ho; simpl.
    + intros [= <-]. eauto.
    + discriminate.
Qed.

(** Each branch of the tool switch either throws before the executor or
    runs one statement and wraps its rows. *)
Lemma dispatchTool_shape name args :
  (exists e, dispatchTool drv name args = throw e)
  \/ (exists sqlText,
        dispatchTool drv name args
        = bind (executeQuery drv sqlText) (fun rows => ret (ToolContent rows))).
Proof.
  unfold dispatchTool.
  repeat match goal with
         | |- context [if String.eqb name ?k then _ else _] =>
             destruct (String.eqb name k)
         | |- context [match arg args "query" with _ => _ end] =>
             destruct (arg args "query")
         | |- context [if negb ?b then _ else _] => destruct b; simpl
         end; eauto.
Qed.

Lemma dispatchResource_shape uri :
  (exists e, dispatchResource drv uri = throw e)
  \/ (exists sqlText,
        dispatchResource drv uri
        = bind (executeQuery drv sqlText)
            (fun rows => ret (ResourceContents uri rows))).
Proof.
  unfold dispatchResource.
  repeat match goal with
         | |- context [if String.eqb uri ?k then _ else _] =>
             destruct (String.eqb uri k)
         end; eauto.
Qed.

Lemma bodyOf_shape r :
  (exists e, bodyOf drv r = throw e)
  \/ (exists sqlText,
        bodyOf drv r
        = bind (executeQuery drv sqlText) (fun rows => ret (responseOf r rows))).
Proof.
  destruct r as [uri|name args]; simpl.
  - apply dispatchResource_shape.
  - apply dispatchTool_shape.
Qed.

Lemma handle_unfold r :
  handle drv r
  = tryCatch (bind (connect drv) (fun _ => bodyOf drv r))
      (fun e =>
         throw (Js.McpError Js.InternalError
                  (failurePrefix r +:+ Js.messageOf e))).
Proof. now destruct r. Qed.

(** The three ways a call can go: the initial [connect] throws; the body
    throws before the executor; one statement is run on the connection of
    the slot and its outcome decides. *)
Lemma handle_cases r s :
  (exists message,
     (connect drv s).1 = Throw (Js.Error message)
     /\ handle drv r s
        = (Throw (Js.McpError Js.InternalError (failurePrefix r +:+ message)),
           (connect drv s).2))
  \/ (connectReturns drv s
      /\ exists e,
           bodyOf drv r = throw e
           /\ handle drv r s
              = (Throw (Js.McpError Js.InternalError
                          (failurePrefix r +:+ Js.messageOf e)),
                 (connect drv s).2))
  \/ (connectReturns drv s
      /\ exists c sqlText,
           connection (connect drv s).2 = Some c
           /\ bodyOf drv r
              = bind (executeQuery drv sqlText)
                  (fun rows => ret (responseOf r rows))
           /\ handle drv r s
              = (match executeOutcome drv
                         (driverLog (connect drv s).2 ++ [EvExecute c sqlText])
                 with
                 | ExecuteError message =>
                     Throw (Js.McpError Js.InternalError
                              (failurePrefix r +:+ message))
                 | ExecuteRows rows => Normal (responseOf r (default [] rows))
                 end,
                 (record (EvExecute c sqlText) (connect drv s).2).2)).
Proof.
  rewrite handle_unfold. unfold tryCatch, bind, connectReturns.
  destruct (connect_occupies drv s) as [c Hc].
  pose proof (connect_throws s) as Hthrow.
  destruct (connect drv s) as [[[]|e0] s1]; simpl in *.
  - right. destruct (bodyOf_shape r) as [[e He]|[sqlText Hq]].
    + left. split; [reflexivity|]. exists e. split; [exact He|].
      now rewrite He.
    + right. split; [reflexivity|]. exists c, sqlText.
      split; [exact Hc|]. split; [exact Hq|].
      rewrite Hq. unfold bind.
      rewrite (executeQuery_occupied drv sqlText s1 c Hc), execute_unfold.
      cbv zeta. simpl.
      now destruct (executeOutcome drv _).
  - left. destruct (Hthrow e0 eq_refl) as (_ & m & -> & _).
    exists m. now split.
Qed.

(** A call changes the server only through its initial [connect] and, at
    most, one more entry in the driver log. *)
Lemma handle_effect r s :
  config (handle drv r s).2 = config s
  /\ connection (handle drv r s).2 = connection (connect drv s).2
  /\ stderr (handle drv r s).2 = stderr (connect drv s).2
  /\ (driverLog (handle drv r s).2 = driverLog (connect drv s).2
      \/ exists c sqlText,
           connection (connect drv s).2 = Some c
           /\ driverLog (handle drv r s).2
              = driverLog (connect drv s).2 ++ [EvExecute c sqlText]).
Proof.
  rewrite <- (connect_config drv s).
  destruct (handle_cases r s)
    as [(m & _ & ->)|[(_ & e & _ & ->)|(_ & c & q & Hc & _ & ->)]]; simpl;
    repeat split; eauto.
Qed.

End Calls.

(** ** Further properties of the executor and of single calls *)

Lemma app_singleton_neq {A} (l : list A) (x : A) : l ++ [x] <> l.
Proof.
  intros H. apply (f_equal (@length A)) in H.
  rewrite List.length_app in H. simpl in H. lia.
Qed.

(** X1.  Called with an empty slot, the executor first runs [connect].  If
    [connect] throws, the executor throws the same error, unwrapped, and
    stops there: the statement is never submitted.  If [connect] returns,
    the statement is run on the connection [connect] has put in the slot,
    and the driver's answer is the result: its error thrown as it is, its
    rows returned, the empty sequence when it passes no rows. *)
Theorem executeQuery_connects_on_demand
    (drv : Driver) (sqlText : string) (s : Server) :
  connection s = None ->
  (forall e,
     (connect drv s).1 = Throw e ->
     executeQuery drv sqlText s = (Throw e, (connect drv s).2)
     /\ sqlTexts (driverLog (executeQuery drv sqlText s).2)
        = sqlTexts (driverLog s))
  /\ (connectReturns drv s ->
      exists c,
        connection (connect drv s).2 = Some c
        /\ connection (executeQuery drv sqlText s).2 = Some c
        /\ driverLog (executeQuery drv sqlText s).2
           = driverLog (connect drv s).2 ++ [EvExecute c sqlText]
        /\ (executeQuery drv sqlText s).1
           = match executeOutcome drv
                     (driverLog (connect drv s).2 ++ [EvExecute c sqlText])
             with
             | ExecuteError message => Throw (Js.Error message)
             | ExecuteRows (Some rows) => Normal rows
             | ExecuteRows None => Normal []
             end).
Proof.
  intros Hs. split.
  - intros e He. rewrite <- (connect_sqlTexts drv s).
    unfold executeQuery, bind, getConnection. rewrite Hs.
    destruct (connect drv s) as [[[]|e0] s1]; simpl in *; [discriminate|].
    injection He as ->. now split.
  - intros Hc. destruct (connectReturns_inv drv s Hc) as (c & H1 & H2 & _).
    exists c. split; [exact H2|].
    unfold executeQuery, bind, getConnection. rewrite Hs, H1, H2.
    rewrite execute_unfold. cbv zeta. simpl.
    destruct (executeOutcome drv _) as [m|[rows|]]; simpl; repeat split;
      exact H2.
Qed.

Lemma executeQuery_connects_on_demand_witness :
  executeQuery unreachableDriver "SHOW TABLES" (freshServer sampleConfig)
  = (Throw (Js.Error "Network error"),
     (connect unreachableDriver (freshServer sampleConfig)).2)
  /\ exists c,
       driverLog (executeQuery silentDriver "SHOW TABLES"
                    (freshServer sampleConfig)).2
       = driverLog (connect silentDriver (freshServer sampleConfig)).2
           ++ [EvExecute c "SHOW TABLES"]
       /\ (executeQuery silentDriver "SHOW TABLES"
             (freshServer sampleConfig)).1 = Normal [].
Proof.
  split.
  - destruct (executeQuery_connects_on_demand unreachableDriver "SHOW TABLES"
                (freshServer sampleConfig) eq_refl) as [H _].
    apply (H (Js.Error "Network error")). reflexivity.
  - destruct (executeQuery_connects_on_demand silentDriver "SHOW TABLES"
                (freshServer sampleConfig) eq_refl) as [_ H].
    destruct (H eq_refl) as (c & _ & _ & Hlog & Hout).
    exists c. split; [exact Hlog | exact Hout].
Defined.

(** X2.  Whatever the request, if the call has submitted a statement and
    the driver reports an error for it, the caller receives an
    InternalError-class error made of the handler's prefix and the driver's
    message, and the connection slot and the configuration are as the
    initial [connect] left them. *)
Theorem execution_failure_is_wrapped
    (drv : Driver) (r : Request) (s : Server) (sqlText message : string) :
  sqlTexts (driverLog (handle drv r s).2) = sqlTexts (driverLog s) ++ [sqlText] ->
  executeOutcome drv (driverLog (handle drv r s).2) = ExecuteError message ->
  (handle drv r s).1
    = Throw (Js.McpError Js.InternalError (failurePrefix r +:+ message))
  /\ connection (handle drv r s).2 = connection (connect drv s).2
  /\ config (handle drv r s).2 = config s.
Proof.
  intros Hsql Hout.
  destruct (handle_effect drv r s) as (Hcfg & Hconn & _).
  split; [|split; assumption].
  destruct (handle_cases drv r s)
    as [(m & _ & H)|[(_ & e & _ & H)|(_ & c & q & Hc & _ & H)]];
    rewrite H in Hsql, Hout |- *; simpl in *.
  - rewrite connect_sqlTexts in Hsql. symmetry in Hsql.
    now apply app_singleton_neq in Hsql.
  - rewrite connect_sqlTexts in Hsql. symmetry in Hsql.
    now apply app_singleton_neq in Hsql.
  - now rewrite Hout.
Qed.

Lemma execution_failure_is_wrapped_witness :
  (handle rejectingDriver (CallTool "describe_table"
                             (Some {[ "table_name" := "T" ]}))
     (freshServer sampleConfig)).1
  = Throw (Js.McpError Js.InternalError
             "Tool execution failed: SQL compilation error")
  /\ (handle rejectingDriver (ReadResource "snowflake://schemas")
        (freshServer sampleConfig)).1
     = Throw (Js.McpError Js.InternalError
                "Failed to read resource: SQL compilation error").
Proof.
  split.
  - apply (execution_failure_is_wrapped rejectingDriver
             (CallTool "describe_table" (Some {[ "table_name" := "T" ]}))
             (freshServer sampleConfig) "DESCRIBE TABLE T"
             "SQL compilation error"); reflexivity.
  - apply (execution_failure_is_wrapped rejectingDriver
             (ReadResource "snowflake://schemas")
             (freshServer sampleConfig) "SHOW SCHEMAS"
             "SQL compilation error"); reflexivity.
Defined.

(** X3.  A call that returns a response has submitted exactly one statement,
    the driver answered it without error, and the response carries the rows
    of that answer (none if the driver passed no rows); a resource response
    carries the identifier that was asked for. *)
Theorem response_carries_the_driver_rows
    (drv : Driver) (r : Request) (s : Server) (response : Response) :
  (handle drv r s).1 = Normal response ->
  exists sqlText rows,
    sqlTexts (driverLog (handle drv r s).2)
    = sqlTexts (driverLog s) ++ [sqlText]
    /\ executeOutcome drv (driverLog (handle drv r s).2) = ExecuteRows rows
    /\ response = responseOf r (match rows with
                                | Some l => l
                                | None => []
                                end).
Proof.
  intros Hok.
  destruct (handle_cases drv r s)
    as [(m & _ & H)|[(_ & e & _ & H)|(_ & c & q & Hc & _ & H)]];
    rewrite H in Hok |- *; simpl in *; try discriminate.
  exists q.
  destruct (executeOutcome drv _) as [m|rows] eqn:Ho; [discriminate|].
  exists rows. rewrite sqlTexts_app, connect_sqlTexts. simpl.
  injection Hok as <-.
  split; [reflexivity|]. split; [reflexivity|]. now destruct rows.
Qed.

Lemma response_carries_the_driver_rows_witness :
  exists sqlText rows,
    sqlTexts (driverLog
      (handle oneRowDriver (ReadResource "snowflake://schemas")
         (freshServer sampleConfig)).2) = [] ++ [sqlText]
    /\ executeOutcome oneRowDriver
         (driverLog (handle oneRowDriver (ReadResource "snowflake://schemas")
                       (freshServer sampleConfig)).2) = ExecuteRows rows
    /\ ResourceContents "snowflake://schemas" [[("name", "PUBLIC")]]
       = responseOf (ReadResource "snowflake://schemas")
           (match rows with Some l => l | None => [] end).
Proof.
  apply (response_carries_the_driver_rows oneRowDriver
           (ReadResource "snowflake://schemas") (freshServer sampleConfig)).
  reflexivity.
Defined.

(** X4.  No call submits more than one statement: after a call the list of
    submitted statements is the former one, or the former one followed by a
    single statement. *)
Theorem call_submits_at_most_one_statement
    (drv : Driver) (r : Request) (s : Server) :
  sqlTexts (driverLog (handle drv r s).2) = sqlTexts (driverLog s)
  \/ exists sqlText,
       sqlTexts (driverLog (handle drv r s).2)
       = sqlTexts (driverLog s) ++ [sqlText].
Proof.
  destruct (handle_effect drv r s) as (_ & _ & _ & [H|(c & q & _ & H)]);
    rewrite H.
  - left. apply connect_sqlTexts.
  - right. exists q. now rewrite sqlTexts_app, connect_sqlTexts.
Qed.

(** X5.  When the slot is empty and the driver cannot open the session,
    every request fails with the driver's message behind the handler's
    prefix, whatever was asked (a valid tool, an unknown one, a query that
    would have been rejected), and no statement is submitted. *)
Theorem connection_failure_fails_every_call
    (drv : Driver) (r : Request) (s : Server) (message : string) :
  connection s = None ->
  connectOutcome drv
    ((driverLog s ++ [EvCreateConnection (connectionOptions (config s))])
       ++ [EvConnect (created (driverLog s))]) = Some message ->
  (handle drv r s).1
    = Throw (Js.McpError Js.InternalError (failurePrefix r +:+ message))
  /\ sqlTexts (driverLog (handle drv r s).2) = sqlTexts (driverLog s).
Proof.
  intros Hs Ho.
  pose proof (connect_empty drv s Hs) as Hc. cbv zeta in Hc.
  rewrite Ho in Hc.
  rewrite handle_unfold. unfold tryCatch, bind. rewrite Hc. simpl.
  split; [reflexivity|].
  rewrite !sqlTexts_app. simpl. now rewrite !app_nil_r.
Qed.

Lemma connection_failure_fails_every_call_witness :
  (handle unreachableDriver (CallTool "no_such_tool" None)
     (freshServer sampleConfig)).1
  = Throw (Js.McpError Js.InternalError
             "Tool execution failed: Network error")
  /\ sqlTexts (driverLog
       (handle unreachableDriver (CallTool "no_such_tool" None)
          (freshServer sampleConfig)).2) = [].
Proof.
  apply (connection_failure_fails_every_call unreachableDriver
           (CallTool "no_such_tool" None) (freshServer sampleConfig)
           "Network error"); reflexivity.
Defined.

(** ** Invariants of a server that serves requests *)

Section Serving.

Variable drv : Driver.

(** From an occupied slot a call only appends statements run on the
    connection of the slot. *)
Lemma handle_occupied_log r s c :
  connection s = Some c ->
  connection (handle drv r s).2 = Some c
  /\ stderr (handle drv r s).2 = stderr s
  /\ exists sqls,
       driverLog (handle drv r s).2
       = driverLog s ++ List.map (EvExecute c) sqls.
Proof.
  intros Hs.
  destruct (handle_effect drv r s) as (_ & Hc & He & Hl).
  rewrite (connect_occupied drv s c Hs) in Hc, He, Hl. simpl in *.
  rewrite Hc, He. repeat split; trivial.
  destruct Hl as [H|(c' & q & Hc' & H)].
  - exists []. simpl. now rewrite app_nil_r.
  - exists [q]. simpl. congruence.
Qed.

Lemma serve_occupied_log rs : forall s c,
  connection s = Some c ->
  connection (serve drv rs s).2 = Some c
  /\ stderr (serve drv rs s).2 = stderr s
  /\ exists sqls,
       driverLog (serve drv rs s).2
       = driverLog s ++ List.map (EvExecute c) sqls.
Proof.
  induction rs as [|r rs IH]; intros s c Hs.
  - simpl. repeat split; trivial. exists []. simpl. now rewrite app_nil_r.
  - rewrite serve_cons.
    destruct (handle_occupied_log r s c Hs) as (H1 & H2 & l1 & H3).
    destruct (IH _ c H1) as (I1 & I2 & l2 & I3).
    rewrite I1, I2, I3, H2, H3. repeat split; trivial.
    exists (l1 ++ l2). now rewrite List.map_app, app_assoc.
Qed.

Lemma sqlTexts_map_execute c sqls :
  sqlTexts (List.map (EvExecute c) sqls) = sqls.
Proof. induction sqls as [|q l IH]; simpl; congruence. Qed.

(** The whole history of a newly built server that has served at least one
    request. *)
Lemma serve_log r rs s0 :
  connection s0 = None -> driverLog s0 = [] ->
  let s := (serve drv (r :: rs) s0).2 in
  let opening :=
    [EvCreateConnection (connectionOptions (config s0)); EvConnect 0] in
  connection s = Some 0
  /\ driverLog s = opening ++ List.map (EvExecute 0) (sqlTexts (driverLog s))
  /\ stderr s
     = stderr s0 ++ match connectOutcome drv opening with
                    | None => [LogConnected]
                    | Some _ => []
                    end.
Proof.
  intros Hs Hl s opening. subst s. rewrite serve_cons.
  pose proof (connect_empty drv s0 Hs) as Hc. cbv zeta in Hc.
  rewrite Hl in Hc. change (created []) with 0 in Hc. simpl in Hc.
  fold opening in Hc.
  assert (H0 : connection (connect drv s0).2 = Some 0
               /\ driverLog (connect drv s0).2 = opening
               /\ stderr (connect drv s0).2
                  = stderr s0 ++ match connectOutcome drv opening with
                                 | None => [LogConnected]
                                 | Some _ => []
                                 end).
  { rewrite Hc. destruct (connectOutcome drv opening); simpl;
      rewrite ?app_nil_r; auto. }
  destruct H0 as (C0 & L0 & E0).
  destruct (handle_effect drv r s0) as (_ & C1 & E1 & L1).
  rewrite C0 in C1. rewrite E0 in E1. rewrite L0 in L1.
  destruct (serve_occupied_log rs _ 0 C1) as (C2 & E2 & l2 & L2).
  rewrite C2, E2, E1. repeat split; trivial.
  rewrite L2.
  destruct L1 as [L1|(c & q & Hq & L1)]; rewrite L1.
  - rewrite sqlTexts_app, sqlTexts_map_execute. reflexivity.
  - rewrite C0 in Hq. injection Hq as <-.
    rewrite <- app_assoc, !sqlTexts_app, sqlTexts_map_execute. simpl.
    reflexivity.
Qed.

End Serving.

(** X6.  A newly built server whose first connection attempt succeeds and
    that has served at least one request has asked the driver for one
    connection, with the options of its configuration, then for the opening
    of that connection, and after that only for statements, all of them on
    that connection, which is the one in the slot.  The message 'Connected
    to Snowflake' has been logged exactly once. *)
Theorem served_log_shape
    (drv : Driver) (rs : list Request) (s0 : Server) :
  connection s0 = None -> driverLog s0 = [] -> rs <> [] ->
  connectReturns drv s0 ->
  let s := (serve drv rs s0).2 in
  let opening :=
    [EvCreateConnection (connectionOptions (config s0)); EvConnect 0] in
  connection s = Some 0
  /\ driverLog s = opening ++ List.map (EvExecute 0) (sqlTexts (driverLog s))
  /\ stderr s = stderr s0 ++ [LogConnected].
Proof.
  intros Hs Hl Hrs Hfirst. destruct rs as [|r rs]; [congruence|].
  destruct (serve_log drv r rs s0 Hs Hl) as (H1 & H2 & H3).
  split; [exact H1|]. split; [exact H2|].
  rewrite H3. f_equal.
  unfold connectReturns in Hfirst.
  rewrite (connect_empty drv s0 Hs), Hl in Hfirst. cbv zeta in Hfirst.
  change (created []) with 0 in Hfirst. simpl in Hfirst.
  now destruct (connectOutcome drv _).
Qed.

Lemma served_log_shape_witness :
  let rs := [CallTool "read_query" (Some {[ "query" := "select 1" ]});
             CallTool "read_query" (Some {[ "query" := "drop table t" ]});
             ReadResource "snowflake://tables"] in
  let s := (serve reliableDriver rs (freshServer sampleConfig)).2 in
  driverLog s
  = [EvCreateConnection (connectionOptions sampleConfig); EvConnect 0]
      ++ List.map (EvExecute 0) (sqlTexts (driverLog s)).
Proof.
  intros rs s.
  apply (served_log_shape reliableDriver rs (freshServer sampleConfig));
    [reflexivity | reflexivity | discriminate | reflexivity].
Defined.

(** X7.  The credentials of the environment reach the driver unchanged: on
    a server built from an environment, any connection the driver is asked
    to create carries the account, user name and password that were loaded,
    none of them empty, and the four optional settings exactly as the
    environment has them. *)
Theorem credentials_reach_the_driver
    (drv : Driver) (env : gmap string string) (s0 : Server)
    (rs : list Request) (options : ConnectionOptions) :
  construct env = Normal s0 ->
  In (EvCreateConnection options) (driverLog (serve drv rs s0).2) ->
  opt_account options = Js.orEmpty (env !! "SNOWFLAKE_ACCOUNT")
  /\ opt_username options = Js.orEmpty (userSetting env)
  /\ opt_password options = Js.orEmpty (env !! "SNOWFLAKE_PASSWORD")
  /\ opt_account options <> ""
  /\ opt_username options <> ""
  /\ opt_password options <> ""
  /\ opt_warehouse options = env !! "SNOWFLAKE_WAREHOUSE"
  /\ opt_database options = env !! "SNOWFLAKE_DATABASE"
  /\ opt_schema options = env !! "SNOWFLAKE_SCHEMA"
  /\ opt_role options = env !! "SNOWFLAKE_ROLE".
Proof.
  intros Hc Hin.
  (* what construction produced *)
  unfold construct, loadConfig in Hc. rewrite <- userSetting_or in Hc.
  cbn [account username password] in Hc.
  destruct (Js.isEmpty (Js.orEmpty (env !! "SNOWFLAKE_ACCOUNT"))) eqn:Ea;
    [discriminate|].
  destruct (Js.isEmpty (Js.orEmpty (userSetting env))) eqn:Eu;
    [discriminate|].
  destruct (Js.isEmpty (Js.orEmpty (env !! "SNOWFLAKE_PASSWORD"))) eqn:Ep;
    [discriminate|].
  simpl in Hc. injection Hc as <-.
  (* the only creation event is the first entry of the log *)
  assert (Hopt : options
                 = connectionOptions
                     {| account := Js.orEmpty (env !! "SNOWFLAKE_ACCOUNT");
                        username := Js.orEmpty (userSetting env);
                        password := Js.orEmpty (env !! "SNOWFLAKE_PASSWORD");
                        warehouse := env !! "SNOWFLAKE_WAREHOUSE";
                        database := env !! "SNOWFLAKE_DATABASE";
                        schema := env !! "SNOWFLAKE_SCHEMA";
                        role := env !! "SNOWFLAKE_ROLE" |}).
  { destruct rs as [|r rs]; [contradiction|].
    match type of Hin with
    | In _ (driverLog (serve _ _ ?s).2) =>
        destruct (serve_log drv r rs s eq_refl eq_refl) as (_ & Hlog & _)
    end.
    rewrite Hlog in Hin. simpl in Hin.
    destruct Hin as [Hin|[Hin|Hin]]; [congruence | discriminate |].
    apply List.in_map_iff in Hin as (q & Hq & _). discriminate. }
  subst options. simpl.
  repeat split; trivial.
  - intros E. rewrite E in Ea. discriminate.
  - intros E. rewrite E in Eu. discriminate.
  - intros E. rewrite E in Ep. discriminate.
Qed.

Lemma credentials_reach_the_driver_witness :
  opt_account (connectionOptions sampleConfig) = "acme-eu1"
  /\ opt_username (connectionOptions sampleConfig) = "alice"
  /\ opt_password (connectionOptions sampleConfig) <> ""
  /\ opt_warehouse (connectionOptions sampleConfig) = Some "WH".
Proof.
  pose proof (credentials_reach_the_driver reliableDriver sampleEnv _
                [CallTool "list_databases" None]
                (connectionOptions sampleConfig) eq_refl) as H.
  destruct H as (Ha & Hu & _ & _ & _ & Hp & Hw & _).
  - left. reflexivity.
  - split; [exact Ha|]. split; [exact Hu|]. split; [exact Hp | exact Hw].
Defined.

(** X8.  The configuration is never modified: whatever requests are served
    and whatever the driver answers, the server keeps the configuration it
    started with. *)
Theorem configuration_is_never_modified
    (drv : Driver) (rs : list Request) (s : Server) :
  config (serve drv rs s).2 = config s.
Proof.
  revert s. induction rs as [|r rs IH]; intros s; [reflexivity|].
  rewrite serve_cons, IH.
  now destruct (handle_effect drv r s) as [Hconfig _].
Qed.

(** ** The SELECT guard, once more *)

Lemma trimStart_app q rest :
  Js.isEmpty (Js.trimStart q) = false ->
  Js.trimStart (q +:+ rest) = Js.trimStart q +:+ rest.
Proof.
  induction q as [|c q IH]; simpl; [discriminate|].
  destruct (Js.isWhiteSpace c); [exact IH | reflexivity].
Qed.

Lemma beginsWithSelect_app t rest :
  beginsWithSelect t = true -> beginsWithSelect (t +:+ rest) = true.
Proof.
  destruct t as [|c1 [|c2 [|c3 [|c4 [|c5 [|c6 t]]]]]]; simpl;
    try discriminate. trivial.
Qed.

(** X9.  The guard of [read_query] looks at the beginning of the text only:
    a text it accepts is still accepted with anything appended to it, be it
    more letters or a further statement. *)
Theorem select_guard_checks_the_prefix_only (query rest : string) :
  isSelect query = true -> isSelect (query +:+ rest) = true.
Proof.
  rewrite !isSelect_spec. unfold startsWithSelectIgnoringCase. intros H.
  rewrite trimStart_app.
  - now apply beginsWithSelect_app.
  - now destruct (Js.trimStart query).
Qed.

Lemma select_guard_checks_the_prefix_only_witness :
  isSelect " select 1; DROP TABLE t" = true
  /\ isSelect "SELECTED" = true.
Proof.
  split.
  - apply (select_guard_checks_the_prefix_only " select 1" "; DROP TABLE t").
    reflexivity.
  - apply (select_guard_checks_the_prefix_only "SELECT" "ED"). reflexivity.
Defined.

(** ** Resources and tools side by side *)

Lemma same_statement drv r1 r2 sqlText s :
  bodyOf drv r1
  = bind (executeQuery drv sqlText) (fun rows => ret (responseOf r1 rows)) ->
  bodyOf drv r2
  = bind (executeQuery drv sqlText) (fun rows => ret (responseOf r2 rows)) ->
  (handle drv r1 s).2 = (handle drv r2 s).2
  /\ forall rows,
       (handle drv r1 s).1 = Normal (responseOf r1 rows)
       <-> (handle drv r2 s).1 = Normal (responseOf r2 rows).
Proof.
  intros H1 H2. rewrite !handle_unfold. unfold tryCatch, bind.
  rewrite H1, H2. unfold bind.
  destruct (connect drv s) as [[[]|e] s1]; simpl.
  - destruct (executeQuery drv sqlText s1) as [[rows0|e] s2]; simpl.
    + split; [reflexivity|]. intros rows.
      destruct r1, r2; simpl; split; intros [= ->]; reflexivity.
    + split; [reflexivity|]. intros rows. split; discriminate.
  - split; [reflexivity|]. intros rows. split; discriminate.
Qed.

(** X11.  Reading one of the three resources does to the server and to the
    driver exactly what the listing tool of the same kind does when called
    without arguments, and returns the same rows. *)
Theorem resource_read_matches_listing_tool (drv : Driver) (s : Server) :
  let same uri tool :=
    (readResource drv uri s).2 = (callTool drv tool None s).2
    /\ forall rows,
         (readResource drv uri s).1 = Normal (ResourceContents uri rows)
         <-> (callTool drv tool None s).1 = Normal (ToolContent rows) in
  same "snowflake://databases" "list_databases"
  /\ same "snowflake://schemas" "list_schemas"
  /\ same "snowflake://tables" "list_tables".
Proof.
  intros same. subst same. cbv beta.
  split; [|split].
  - exact (same_statement drv (ReadResource "snowflake://databases")
             (CallTool "list_databases" None) "SHOW DATABASES" s
             eq_refl eq_refl).
  - exact (same_statement drv (ReadResource "snowflake://schemas")
             (CallTool "list_schemas" None) "SHOW SCHEMAS" s
             eq_refl eq_refl).
  - exact (same_statement drv (ReadResource "snowflake://tables")
             (CallTool "list_tables" None) "SHOW TABLES" s
             eq_refl eq_refl).
Qed.

(** ** describe_table *)

(** X12.  Once the initial [connect] has returned, [describe_table] submits
    [DESCRIBE TABLE] followed by the table name as given, without any check:
    an empty name gives a statement that ends after the keyword, and a
    missing [table_name] gives the statement [DESCRIBE TABLE undefined]. *)
Theorem describe_table_sql
    (drv : Driver) (s : Server) (args : option (gmap string string)) :
  connectReturns drv s ->
  (forall table,
     arg args "table_name" = Some table ->
     sqlTexts (driverLog (callTool drv "describe_table" args s).2)
     = sqlTexts (driverLog s) ++ ["DESCRIBE TABLE " +:+ table])
  /\ (arg args "table_name" = None ->
      sqlTexts (driverLog (callTool drv "describe_table" args s).2)
      = sqlTexts (driverLog s) ++ ["DESCRIBE TABLE undefined"]).
Proof.
  intros Hc.
  pose proof (callTool_query_sqlTexts drv "describe_table" args
                ("DESCRIBE TABLE " +:+ Js.interpolate (arg args "table_name"))
                s eq_refl Hc) as H.
  rewrite H. split.
  - intros table ->. reflexivity.
  - intros ->. reflexivity.
Qed.

Lemma describe_table_sql_witness :
  let s0 := freshServer sampleConfig in
  sqlTexts (driverLog
    (callTool reliableDriver "describe_table"
       (Some {[ "table_name" := "DB.SCH.TBL" ]}) s0).2)
  = ["DESCRIBE TABLE DB.SCH.TBL"]
  /\ sqlTexts (driverLog
       (callTool reliableDriver "describe_table" None s0).2)
     = ["DESCRIBE TABLE undefined"].
Proof.
  intros s0. split.
  - destruct (describe_table_sql reliableDriver s0
                (Some {[ "table_name" := "DB.SCH.TBL" ]})) as [H _];
      [reflexivity|].
    apply (H "DB.SCH.TBL"). reflexivity.
  - destruct (describe_table_sql reliableDriver s0 None) as [_ H];
      [reflexivity|].
    apply H. reflexivity.
Defined.

(** ** Arguments and advertised names *)

(** X13.  A tool call depends on its arguments only through the properties
    the tool's input schema declares: two argument objects that agree on
    them give the same call.  In particular extra properties are ignored, a
    missing arguments object is an empty one, and [list_databases] ignores
    its arguments altogether. *)
Theorem tool_call_reads_declared_arguments_only
    (drv : Driver) (name : string) (args args' : option (gmap string string)) :
  (forall key, In key (declared name) -> arg args key = arg args' key) ->
  callTool drv name args = callTool drv name args'.
Proof.
  intros H. unfold callTool, callToolBody.
  assert (Hd : dispatchTool drv name args = dispatchTool drv name args');
    [|now rewrite Hd].
  unfold dispatchTool, listSchemasQuery, listTablesQuery.
  repeat match goal with
         | |- context [String.eqb name ?k] =>
             destruct (String.eqb_spec name k) as [->|_]
         end;
    repeat match goal with
           | |- context [arg args ?k] =>
               rewrite (H k) by (vm_compute; tauto)
           end;
    reflexivity.
Qed.

Lemma tool_call_reads_declared_arguments_only_witness :
  callTool reliableDriver "list_schemas"
    (Some {[ "database" := "X"; "limit" := "5" ]})
  = callTool reliableDriver "list_schemas" (Some {[ "database" := "X" ]})
  /\ callTool reliableDriver "read_query" None
     = callTool reliableDriver "read_query" (Some ∅).
Proof.
  split.
  - apply (tool_call_reads_declared_arguments_only reliableDriver
             "list_schemas").
    intros key [<-|[]]. reflexivity.
  - apply (tool_call_reads_declared_arguments_only reliableDriver
             "read_query").
    intros key [<-|[]]. reflexivity.
Defined.

Section Advertised.

Variable drv : Driver.

Lemma executeQuery_throws sqlText s e :
  (executeQuery drv sqlText s).1 = Throw e -> exists message, e = Js.Error message.
Proof.
  destruct (connection s) as [c|] eqn:Hs.
  - rewrite (executeQuery_occupied drv sqlText s c Hs), execute_unfold.
    cbv zeta. destruct (executeOutcome drv _); simpl; [|discriminate].
    intros [= <-]. eauto.
  - unfold executeQuery, bind, getConnection. rewrite Hs.
    rewrite (connect_empty drv s Hs). cbv zeta.
    destruct (connectOutcome drv _) as [m|]; simpl.
    + intros [= <-]. eauto.
    + rewrite execute_unfold. cbv zeta. simpl.
      destruct (executeOutcome drv _); simpl; [|discriminate].
      intros [= <-]. eauto.
Qed.

Lemma query_branch_throws {A} sqlText (f : list Row -> A) s e :
  (bind (executeQuery drv sqlText) (fun rows => ret (f rows)) s).1 = Throw e ->
  exists message, e = Js.Error message.
Proof.
  unfold bind. pose proof (executeQuery_throws sqlText s) as H.
  destruct (executeQuery drv sqlText s) as [[rows|e0] s1]; simpl in *.
  - discriminate.
  - intros [= <-]. now apply H.
Qed.

(** A listed tool never throws the unknown-tool error. *)
Lemma dispatchTool_known name args s message :
  In name toolNames ->
  (dispatchTool drv name args s).1
  <> Throw (Js.McpError Js.MethodNotFound message).
Proof.
  intros Hin Hthrow. simpl in Hin.
  destruct Hin as [<-|[<-|[<-|[<-|[<-|[]]]]]].
  - rewrite dispatch_read_query in Hthrow.
    destruct (arg args "query") as [query|]; [|discriminate].
    destruct (isSelect query); simpl in Hthrow; [|discriminate].
    apply query_branch_throws in Hthrow as [m Hm]. discriminate.
  - change (dispatchTool drv "list_databases" args)
      with (bind (executeQuery drv "SHOW DATABASES")
              (fun rows => ret (ToolContent rows))) in Hthrow.
    apply query_branch_throws in Hthrow as [m Hm]. discriminate.
  - rewrite dispatch_list_schemas in Hthrow.
    apply query_branch_throws in Hthrow as [m Hm]. discriminate.
  - rewrite dispatch_list_tables in Hthrow.
    apply query_branch_throws in Hthrow as [m Hm]. discriminate.
  - change (dispatchTool drv "describe_table" args)
      with (bind (executeQuery drv
                    ("DESCRIBE TABLE "
                       +:+ Js.interpolate (arg args "table_name")))
              (fun rows => ret (ToolContent rows))) in Hthrow.
    apply query_branch_throws in Hthrow as [m Hm]. discriminate.
Qed.

Lemma dispatchResource_known uri s message :
  In uri resourceUris ->
  (dispatchResource drv uri s).1
  <> Throw (Js.McpError Js.InvalidRequest message).
Proof.
  intros Hin Hthrow. simpl in Hin.
  destruct Hin as [<-|[<-|[<-|[]]]].
  - change (dispatchResource drv "snowflake://databases")
      with (bind (executeQuery drv "SHOW DATABASES")
              (fun rows => ret (ResourceContents "snowflake://databases" rows)))
      in Hthrow.
    apply query_branch_throws in Hthrow as [m Hm]. discriminate.
  - change (dispatchResource drv "snowflake://schemas")
      with (bind (executeQuery drv "SHOW SCHEMAS")
              (fun rows => ret (ResourceContents "snowflake://schemas" rows)))
      in Hthrow.
    apply query_branch_throws in Hthrow as [m Hm]. discriminate.
  - change (dispatchResource drv "snowflake://tables")
      with (bind (executeQuery drv "SHOW TABLES")
              (fun rows => ret (ResourceContents "snowflake://tables" rows)))
      in Hthrow.
    apply query_branch_throws in Hthrow as [m Hm]. discriminate.
Qed.

Lemma connect_then_throws {A} (body : M A) s e :
  (bind (connect drv) (fun _ => body) s).1 = Throw e ->
  (exists message, e = Js.Error message)
  \/ (body (connect drv s).2).1 = Throw e.
Proof.
  unfold bind. pose proof (connect_throws drv s) as H.
  destruct (connect drv s) as [[[]|e0] s1]; simpl in *.
  - intros Hb. now right.
  - intros [= <-]. left. destruct (H e0 eq_refl) as (_ & m & -> & _). eauto.
Qed.

End Advertised.

(** X14.  The tools advertised by the listing handler are exactly the ones
    the tool handler knows: for a listed name the body of the handler never
    raises the unknown-tool error, whatever the arguments, the server and
    the driver; for any other name it can. *)
Theorem advertised_tools_are_the_handled_ones (name : string) :
  In name (List.map Tool.name listTools)
  <-> (forall drv args s message,
         (callToolBody drv name args s).1
         <> Throw (Js.McpError Js.MethodNotFound message)).
Proof.
  change (List.map Tool.name listTools) with toolNames. split.
  - intros Hin drv args s message Hthrow. unfold callToolBody in Hthrow.
    apply connect_then_throws in Hthrow as [[m Hm]|Hb]; [discriminate|].
    now apply dispatchTool_known in Hb.
  - intros H. destruct (in_dec string_dec name toolNames) as [Hin|Hout];
      [exact Hin|].
    exfalso.
    apply (H reliableDriver None (freshServer sampleConfig)
             ("Unknown tool: " +:+ name)).
    unfold callToolBody. rewrite (dispatch_unknown_tool _ _ _ Hout).
    reflexivity.
Qed.

(** X15.  The resources advertised by the listing handler are exactly the
    ones the resource handler knows: for a listed identifier the body of the
    handler never raises the unknown-resource error; for any other
    identifier it can. *)
Theorem advertised_resources_are_the_handled_ones (uri : string) :
  In uri (List.map Resource.uri listResources)
  <-> (forall drv s message,
         (readResourceBody drv uri s).1
         <> Throw (Js.McpError Js.InvalidRequest message)).
Proof.
  change (List.map Resource.uri listResources) with resourceUris. split.
  - intros Hin drv s message Hthrow. unfold readResourceBody in Hthrow.
    apply connect_then_throws in Hthrow as [[m Hm]|Hb]; [discriminate|].
    now apply dispatchResource_known in Hb.
  - intros H. destruct (in_dec string_dec uri resourceUris) as [Hin|Hout];
      [exact Hin|].
    exfalso.
    apply (H reliableDriver (freshServer sampleConfig)
             ("Unknown resource: " +:+ uri)).
    unfold readResourceBody. rewrite (dispatch_unknown_resource _ _ Hout).
    reflexivity.
Qed.

Lemma resource_read_matches_listing_tool_witness :
  (readResource oneRowDriver "snowflake://tables"
     (freshServer sampleConfig)).1
  = Normal (ResourceContents "snowflake://tables" [[("name", "PUBLIC")]]).
Proof.
  destruct (resource_read_matches_listing_tool oneRowDriver
              (freshServer sampleConfig)) as (_ & _ & _ & H).
  apply (H [[("name", "PUBLIC")]]). reflexivity.
Defined.

Lemma advertised_tools_are_the_handled_ones_witness :
  (callToolBody unreachableDriver "list_tables" None
     (freshServer sampleConfig)).1
  <> Throw (Js.McpError Js.MethodNotFound "Unknown tool: list_tables").
Proof.
  destruct (advertised_tools_are_the_handled_ones "list_tables") as [H _].
  apply H. simpl. tauto.
Defined.

Lemma advertised_resources_are_the_handled_ones_witness :
  (readResourceBody rejectingDriver "snowflake://schemas"
     (freshServer sampleConfig)).1
  <> Throw (Js.McpError Js.InvalidRequest
              "Unknown resource: snowflake://schemas").
Proof.
  destruct (advertised_resources_are_the_handled_ones "snowflake://schemas")
    as [H _].
  apply H. simpl. tauto.
Defined.

(** X10.  Once a connection object is in the slot it stays there: whatever
    requests follow and however the driver answers them, even with an error
    for every statement, the slot holds the same connection, no further
    connection is created and no further opening is attempted. *)
Theorem slot_is_never_replaced
    (drv : Driver) (rs : list Request) (s : Server) (c : Connection) :
  connection s = Some c ->
  connection (serve drv rs s).2 = Some c
  /\ created (driverLog (serve drv rs s).2) = created (driverLog s)
  /\ attempts (driverLog (serve drv rs s).2) = attempts (driverLog s).
Proof.
  intros Hs.
  destruct (serve_occupied_log drv rs s c Hs) as (H & _).
  destruct (serve_steady drv rs s c Hs) as [H1 H2]. auto.
Qed.

Lemma slot_is_never_replaced_witness :
  let s1 := (callTool rejectingDriver "list_databases" None
               (freshServer sampleConfig)).2 in
  let rs := [CallTool "list_tables" None; ReadResource "snowflake://schemas"] in
  connection (serve rejectingDriver rs s1).2 = Some 0
  /\ attempts (driverLog (serve rejectingDriver rs s1).2) = 1.
Proof.
  intros s1 rs.
  destruct (slot_is_never_replaced rejectingDriver rs s1 0 eq_refl)
    as (H1 & _ & H2).
  split; [exact H1 | exact H2].
Defined.
